(** * SwimScore metrics (GoldenCheetah, src/SwimScore.cpp)

    A shallow embedding of the swim metrics of SwimScore.cpp
    (XPowerSwim, XPaceSwim, STP, SRI, SwimScore, TriScore) and of the
    drag model they share, followed by the properties of the metric
    specification that concern them.

    Numbers.  The C++ code computes with IEEE-754 [double]s.  They are
    modelled here by the extended reals [dbl]: a finite value is an exact
    real number (no rounding, no overflow), and the three non-finite
    values +Infinity, -Infinity and NaN are kept, with the IEEE rules
    for producing and propagating them, so that a division by zero is
    visible in the result.  Zero carries no sign.

    Where a statement turns on the rounding of binary64 itself, the lines
    concerned (the smoothing constants and the update of the weighted
    value, which use only [+], [*] and [/]) are also given over Rocq's
    primitive binary64 floats, under names ending in [_b64]. *)

From Stdlib Require Import Reals Lra Lia ZArith List Ascii String.
From stdpp Require Import gmap strings.
From Stdlib Require Import PrimFloat.
Import ListNotations.

Open Scope R_scope.

(* ===================================================================== *)
(** ** The number model *)
(* ===================================================================== *)

Inductive dbl : Type :=
| Num (r : R)
| PInf
| NInf
| NaN.

Definition Rsign_pos (r : R) : bool := if Rlt_dec 0 r then true else false.
Definition Rsign_neg (r : R) : bool := if Rlt_dec r 0 then true else false.
Definition Ris_zero (r : R) : bool := if Req_dec_T r 0 then true else false.

(** An infinity times [r]: NaN at zero, otherwise the signs multiply. *)
Definition inf_times (positive : bool) (r : R) : dbl :=
  if Ris_zero r then NaN
  else if Bool.eqb positive (Rsign_pos r) then PInf else NInf.

Definition dadd (x y : dbl) : dbl :=
  match x, y with
  | NaN, _ | _, NaN => NaN
  | Num a, Num b => Num (a + b)
  | PInf, NInf | NInf, PInf => NaN
  | PInf, _ | _, PInf => PInf
  | NInf, _ | _, NInf => NInf
  end.

Definition dmul (x y : dbl) : dbl :=
  match x, y with
  | NaN, _ | _, NaN => NaN
  | Num a, Num b => Num (a * b)
  | PInf, Num b | Num b, PInf => inf_times true b
  | NInf, Num b | Num b, NInf => inf_times false b
  | PInf, PInf | NInf, NInf => PInf
  | PInf, NInf | NInf, PInf => NInf
  end.

(** Division: a finite value over zero is an infinity (the zero divisor
    counts as +0), zero over zero and infinity over infinity are NaN. *)
Definition ddiv (x y : dbl) : dbl :=
  match x, y with
  | NaN, _ | _, NaN => NaN
  | Num a, Num b =>
      if Ris_zero b then
        (if Ris_zero a then NaN else if Rsign_pos a then PInf else NInf)
      else Num (a / b)
  | Num _, (PInf | NInf) => Num 0
  | PInf, Num b => if Rsign_neg b then NInf else PInf
  | NInf, Num b => if Rsign_neg b then PInf else NInf
  | (PInf | NInf), (PInf | NInf) => NaN
  end.

(** [x > y] on doubles: false as soon as one side is NaN. *)
Definition dgt (x y : dbl) : bool :=
  match x, y with
  | NaN, _ | _, NaN => false
  | Num a, Num b => if Rlt_dec b a then true else false
  | PInf, PInf => false
  | PInf, _ => true
  | _, NInf => match x with NInf => false | _ => true end
  | _, _ => false
  end.

(** A double used as a C++ condition: true unless it is zero (NaN is true). *)
Definition truthy (x : dbl) : bool :=
  match x with
  | Num r => negb (Ris_zero r)
  | _ => true
  end.

(** Conversion of an [int] to [double]. *)
Definition of_int (z : Z) : dbl := Num (IZR z).

(** *** [pow] of <cmath>

    The special values follow C99 Annex F.9.4.4; on finite arguments the
    value is the exact real power. *)

Definition is_int (y : R) : bool :=
  if Req_dec_T (IZR (Int_part y)) y then true else false.

Definition is_odd_int (y : R) : bool := is_int y && Z.odd (Int_part y).

Definition pow_fin (x y : R) : dbl :=
  if is_int y then
    (if Ris_zero x && Rsign_neg y then PInf else Num (powerRZ x (Int_part y)))
  else if Rsign_pos x then Num (Rpower x y)
  else if Ris_zero x then (if Rsign_pos y then Num 0 else PInf)
  else NaN.

Definition pow (x y : dbl) : dbl :=
  match y with
  | Num b =>
      if Ris_zero b then Num 1
      else match x with
           | Num a => pow_fin a b
           | PInf => if Rsign_pos b then PInf else Num 0
           | NInf => if Rsign_pos b
                     then (if is_odd_int b then NInf else PInf)
                     else Num 0
           | NaN => NaN
           end
  | NaN =>
      match x with
      | Num a => if Req_dec_T a 1 then Num 1 else NaN
      | _ => NaN
      end
  | PInf =>
      match x with
      | Num a =>
          if Req_dec_T (Rabs a) 1 then Num 1
          else if Rlt_dec (Rabs a) 1 then Num 0 else PInf
      | PInf | NInf => PInf
      | NaN => NaN
      end
  | NInf =>
      match x with
      | Num a =>
          if Req_dec_T (Rabs a) 1 then Num 1
          else if Rlt_dec (Rabs a) 1 then PInf else Num 0
      | PInf | NInf => Num 0
      | NaN => NaN
      end
  end.

Declare Scope dbl_scope.
Delimit Scope dbl_scope with dbl.
Bind Scope dbl_scope with dbl.
Infix "+" := dadd : dbl_scope.
Infix "*" := dmul : dbl_scope.
Infix "/" := ddiv : dbl_scope.

(* ===================================================================== *)
(** ** The drag model *)
(* ===================================================================== *)

(** Swimming Power from Speed *)
Definition swimming_power (weight speed : dbl) : dbl :=
  let K := (Num 0.35 * weight + Num 2)%dbl in  (* Drag Factor (Eq. 6) *)
  let ep := Num 0.6 in                         (* propelling efficiency *)
  ((K / ep) * pow speed (Num 3))%dbl.          (* Eq. 5 *)

(** Swimming Speed from Power *)
Definition swimming_speed (weight power : dbl) : dbl :=
  let K := (Num 0.35 * weight + Num 2)%dbl in
  let ep := Num 0.6 in
  pow ((ep / K) * power)%dbl (Num 1 / Num 3)%dbl.

(* ===================================================================== *)
(** ** Activities, metric objects and dependencies *)
(* ===================================================================== *)

(** Modelled from the spec: the discipline tag of an activity (swim, run,
    bike, other), which [RideFile::isSwim()] and [RideFile::isRun()]
    read; RideFile.h is not part of SwimScore.cpp. *)
Inductive Discipline : Type := Swim | Run | Bike | Other.

Record RideFilePoint : Type := mkPoint {
  secs : R;   (* offset from the start, seconds *)
  kph : R     (* instantaneous speed, km/h *)
}.

(** What the metrics read of a [RideFile].  The numbers an activity
    provides are finite. *)
Record RideFile : Type := mkRide {
  discipline : Discipline;
  getWeight : R;                       (* athlete's weight, kg *)
  recIntSecs : R;                      (* nominal sample interval *)
  dataPoints : list RideFilePoint;
  tags : gmap string string;           (* per-activity string tags *)
  startDate : Z                        (* startTime().date(), as a day number *)
}.

Definition isSwim (ride : RideFile) : bool :=
  match discipline ride with Swim => true | _ => false end.

Definition isRun (ride : RideFile) : bool :=
  match discipline ride with Run => true | _ => false end.

(** Modelled from the spec: [ride->getTag(name, fallback)], the generic
    string-tag lookup of an activity with its fallback. *)
Definition getTag (ride : RideFile) (name fallback : string) : string :=
  match tags ride !! name with
  | Some v => v
  | None => fallback
  end.

(** Modelled from the spec: the date-ranged configuration of the
    threshold speed (PaceZones.h).  [whichRange] gives the index of the
    range configured for a date, negative when there is none; [getCV]
    the critical velocity of a range, in km/h. *)
Record PaceZones : Type := mkZones {
  whichRange : Z -> Z;
  getCV : Z -> R
}.

Record Context : Type := mkContext {
  paceZones : PaceZones    (* context->athlete->paceZones(true) *)
}.

(** Modelled from the spec: the part of a [RideMetric] object (RideMetric.h)
    that [compute] writes, a numeric value and an effective duration
    "count"; [setValue] and [setCount] store them, [value(true)] and
    [count()] read them.  A dependency is found by its symbol; the
    [dynamic_cast] of the source on it is not modelled. *)
Record RideMetric : Type := mkMetric {
  value_ : dbl;
  count_ : dbl
}.

Definition setValue (v : dbl) (m : RideMetric) : RideMetric :=
  {| value_ := v; count_ := count_ m |}.

Definition setCount (c : dbl) (m : RideMetric) : RideMetric :=
  {| value_ := value_ m; count_ := c |}.

(** What a [compute] call comes to: it returns with the metric object
    in some state, an [assert] on its dependencies fails, or (in this
    model only) the bound on loop iterations is used up. *)
Inductive result (A : Type) : Type :=
| Ret (a : A)
| AssertFailed
| OutOfFuel.
Arguments Ret {A} a.
Arguments AssertFailed {A}.
Arguments OutOfFuel {A}.

#[export] Instance result_bind : MBind result := fun A B k r =>
  match r with
  | Ret a => k a
  | AssertFailed => AssertFailed
  | OutOfFuel => OutOfFuel
  end.

(** [assert(deps.contains(sym))] followed by [deps.value(sym)]. *)
Definition dep (deps : gmap string RideMetric) (sym : string) : result RideMetric :=
  match deps !! sym with
  | Some m => Ret m
  | None => AssertFailed
  end.

(* ===================================================================== *)
(** ** XPowerSwim *)
(* ===================================================================== *)

Definition EPSILON : dbl := Num 0.1.
Definition NEGLIGIBLE : dbl := Num 0.1.

(** The local variables of the loop of [XPowerSwim::compute].  The step
    counter is an [int] in the source; it is kept unbounded here. *)
Record xp_state : Type := mkState {
  weighted : dbl;
  lastSecs : dbl;
  total : dbl;
  count : Z
}.

Definition xp_init : xp_state :=
  {| weighted := Num 0; lastSecs := Num 0; total := Num 0; count := 0 |}.

(** The smoothing constants, as [XPowerSwim::compute] derives them
    from the sample interval. *)
Definition sampsPerWindow (secsDelta : dbl) : dbl := (Num 25 / secsDelta)%dbl.

Definition attenuation (secsDelta : dbl) : dbl :=
  (sampsPerWindow secsDelta / (sampsPerWindow secsDelta + secsDelta))%dbl.

Definition sampleWeight (secsDelta : dbl) : dbl :=
  (secsDelta / (sampsPerWindow secsDelta + secsDelta))%dbl.

Section Estimator.

Variables (weight secsDelta : dbl).

(** The condition of the inner [while]. *)
Definition gap_cond (st : xp_state) (point : RideFilePoint) : bool :=
  dgt (weighted st) NEGLIGIBLE
  && dgt (Num (secs point)) (lastSecs st + secsDelta + EPSILON)%dbl.

(** One pass through the body of the inner [while]: a decay-only step. *)
Definition decay_step (st : xp_state) : xp_state :=
  let w := (weighted st * attenuation secsDelta)%dbl in
  {| weighted := w;
     lastSecs := (lastSecs st + secsDelta)%dbl;
     total := (total st + pow w (Num 3))%dbl;
     count := (count st + 1)%Z |}.

(** The rest of the body of the [foreach]: the step for a sample. *)
Definition sample_step (st : xp_state) (point : RideFilePoint) : xp_state :=
  let w := (weighted st * attenuation secsDelta
            + sampleWeight secsDelta
              * swimming_power weight (Num (kph point) / Num 3.6))%dbl in
  {| weighted := w;
     lastSecs := Num (secs point);
     total := (total st + pow w (Num 3))%dbl;
     count := (count st + 1)%Z |}.

(** The inner [while]; [fuel] bounds the number of passes. *)
Fixpoint while_gap (fuel : nat) (st : xp_state) (point : RideFilePoint)
  : result xp_state :=
  if gap_cond st point then
    match fuel with
    | O => OutOfFuel
    | S fuel' => while_gap fuel' (decay_step st) point
    end
  else Ret st.

(** The [foreach] over the data points. *)
Fixpoint foreach_point (fuel : nat) (st : xp_state) (points : list RideFilePoint)
  : result xp_state :=
  match points with
  | [] => Ret st
  | point :: rest =>
      st' ← while_gap fuel st point;
      foreach_point fuel (sample_step st' point) rest
  end.

End Estimator.

Definition XPowerSwim_compute (fuel : nat) (ride : RideFile) (m : RideMetric)
  : result RideMetric :=
  (* xPowerSwim only makes sense for swimming *)
  if negb (isSwim ride) then Ret m else
  let weight := Num (getWeight ride) in
  let secsDelta := Num (recIntSecs ride) in
  st ← foreach_point weight secsDelta fuel xp_init (dataPoints ride);
  let xpower := pow (total st / of_int (count st))%dbl (Num 1 / Num 3)%dbl in
  let secs := (of_int (count st) * secsDelta)%dbl in
  Ret (setCount secs (setValue xpower m)).

Definition XPowerSwim_isRelevantForRide (ride : RideFile) : bool := isSwim ride.

(* ===================================================================== *)
(** ** XPaceSwim, STP, SRI, SwimScore, TriScore *)
(* ===================================================================== *)

(** xPaceSwim: constant pace which requires the same xPowerSwim *)
Definition XPaceSwim_compute (ride : RideFile) (deps : gmap string RideMetric)
    (m : RideMetric) : result RideMetric :=
  if negb (isSwim ride) then Ret m else
  let weight := Num (getWeight ride) in
  xPowerSwim ← dep deps "swimscore_xpower";
  let watts := value_ xPowerSwim in
  let speed := swimming_speed weight watts in
  let xPaceSwim :=
    if truthy speed then ((Num 100 / Num 60) / speed)%dbl else Num 0 in
  Ret (setValue xPaceSwim m).

Section STP.

(** [QString::toInt] of Qt: the integer a string denotes, 0 when it
    denotes none. *)
Variable toInt : string -> Z.

(** Swimming Threshold Power based on CV.  The zones pointer is
    dereferenced for [whichRange] before it is tested, so it is not
    null where the test [zones && ...] is reached. *)
Definition STP_compute (ride : RideFile) (context : Context)
    (m : RideMetric) : result RideMetric :=
  if negb (isSwim ride) then Ret m else
  let weight := Num (getWeight ride) in
  let zones := paceZones context in
  let zoneRange := whichRange (paceZones context) (startDate ride) in
  (* did user override for this ride? *)
  let cv := of_int (toInt (getTag ride "CV" "0")) in
  (* not overriden so use the set value, if it has been set at all *)
  let cv :=
    if negb (truthy cv) && true && (0 <=? zoneRange)%Z
    then Num (getCV zones zoneRange)
    else cv in
  (* Swimming power at cv *)
  let watts := swimming_power weight (cv / Num 3.6)%dbl in
  Ret (setValue watts m).

End STP.

(** Swimming Relative Intensity *)
Definition SRI_compute (ride : RideFile) (deps : gmap string RideMetric)
    (m : RideMetric) : result RideMetric :=
  if negb (isSwim ride) then Ret m else
  xPowerSwim ← dep deps "swimscore_xpower";
  stp ← dep deps "swimscore_tp";
  let reli :=
    if truthy (value_ stp) then (value_ xPowerSwim / value_ stp)%dbl else Num 0 in
  let secs := count_ xPowerSwim in
  Ret (setCount secs (setValue reli m)).

(** SwimScore metric for swimming *)
Definition SwimScore_compute (ride : RideFile) (deps : gmap string RideMetric)
    (m : RideMetric) : result RideMetric :=
  if negb (isSwim ride) then Ret m else
  xPowerSwim ← dep deps "swimscore_xpower";
  sri ← dep deps "swimscore_ri";
  stp ← dep deps "swimscore_tp";
  let normWork := (value_ xPowerSwim * count_ xPowerSwim)%dbl in
  let rawGOVSS := (normWork * value_ sri)%dbl in
  let workInAnHourAtSTP := (value_ stp * Num 3600)%dbl in
  let score :=
    if truthy workInAnHourAtSTP
    then (rawGOVSS / workInAnHourAtSTP * Num 100)%dbl else Num 0 in
  Ret (setValue score m).

(** TriScore metric for triathlon *)
Definition TriScore_compute (ride : RideFile) (deps : gmap string RideMetric)
    (m : RideMetric) : result RideMetric :=
  score ←
    (if isSwim ride then
       d ← dep deps "swimscore"; Ret (value_ d)
     else if isRun ride then
       d ← dep deps "govss"; Ret (value_ d)
     else
       d ← dep deps "skiba_bike_score"; Ret (value_ d));
  Ret (setValue score m).

(* ===================================================================== *)
(** ** Registration and evaluation *)
(* ===================================================================== *)

(** A registered metric: its symbol, the symbols it depends on, its
    [isRelevantForRide] and its [compute]. *)
Record MetricDefinition : Type := mkDefinition {
  symbol : string;
  dependencies : list string;
  applicable : RideFile -> bool;
  compute : RideFile -> Context -> gmap string RideMetric -> RideMetric
            -> result RideMetric
}.

Section Registry.

Variable fuel : nat.
Variable toInt : string -> Z.

Definition XPowerSwim_def : MetricDefinition :=
  {| symbol := "swimscore_xpower";
     dependencies := [];
     applicable := XPowerSwim_isRelevantForRide;
     compute := fun ride _ _ m => XPowerSwim_compute fuel ride m |}.

Definition STP_def : MetricDefinition :=
  {| symbol := "swimscore_tp";
     dependencies := [];
     applicable := isSwim;
     compute := fun ride context _ m => STP_compute toInt ride context m |}.

Definition XPaceSwim_def : MetricDefinition :=
  {| symbol := "swimscore_xpace";
     dependencies := ["swimscore_xpower"];
     applicable := isSwim;
     compute := fun ride _ deps m => XPaceSwim_compute ride deps m |}.

Definition SRI_def : MetricDefinition :=
  {| symbol := "swimscore_ri";
     dependencies := ["swimscore_xpower"; "swimscore_tp"];
     applicable := isSwim;
     compute := fun ride _ deps m => SRI_compute ride deps m |}.

Definition SwimScore_def : MetricDefinition :=
  {| symbol := "swimscore";
     dependencies := ["swimscore_xpower"; "swimscore_tp"; "swimscore_ri"];
     applicable := isSwim;
     compute := fun ride _ deps m => SwimScore_compute ride deps m |}.

(** [addAllSwimScore], in its order of registration. *)
Definition addAllSwimScore : list MetricDefinition :=
  [XPowerSwim_def; STP_def; XPaceSwim_def; SRI_def; SwimScore_def].

(** [addTriScore]; TriScore does not override [isRelevantForRide]. *)
Definition TriScore_def : MetricDefinition :=
  {| symbol := "triscore";
     dependencies := ["swimscore"; "govss"; "skiba_bike_score"];
     applicable := fun _ => true;
     compute := fun ride _ deps m => TriScore_compute ride deps m |}.

End Registry.

(** Modelled from the spec: the Evaluator (RideMetric::computeMetrics is
    not in SwimScore.cpp).  It iterates the resolved plan in order; for a
    definition that is not applicable to the activity no value is
    produced; otherwise [compute] runs on a fresh metric object with the
    results so far as its dependencies, and its value enters the result
    set under the definition's symbol.  A failed dependency lookup ends
    the evaluation of the activity. *)
Fixpoint evaluate (plan : list MetricDefinition) (ride : RideFile)
    (context : Context) (fresh : RideMetric) (done : gmap string RideMetric)
  : result (gmap string RideMetric) :=
  match plan with
  | [] => Ret done
  | d :: rest =>
      if applicable d ride then
        m ← compute d ride context done fresh;
        evaluate rest ride context fresh (<[symbol d := m]> done)
      else evaluate rest ride context fresh done
  end.

(* ===================================================================== *)
(** ** Auxiliary definitions for the statements *)
(* ===================================================================== *)

(** The smoothing constants as real numbers, for a non-zero interval. *)
Definition att (dt : R) : R := (25 / dt) / (25 / dt + dt).
Definition swt (dt : R) : R := dt / (25 / dt + dt).

(** The instantaneous power of a sample, as a real number. *)
Definition inst_power (weight : R) (point : RideFilePoint) : R :=
  (0.35 * weight + 2) / 0.6 * (kph point / 3.6) ^ 3.

(** The largest instantaneous power among some samples (0 for none). *)
Definition max_power (weight : R) (points : list RideFilePoint) : R :=
  fold_right (fun point acc => Rmax (inst_power weight point) acc) 0 points.



(** Samples without a gap: each at most an interval and the tolerance
    after the one before. *)
Fixpoint no_gaps (dt last : R) (points : list RideFilePoint) : Prop :=
  match points with
  | [] => True
  | p :: rest => secs p <= last + dt + 0.1 /\ no_gaps dt (secs p) rest
  end.



(** The loop of [XPowerSwim::compute] step by step: [xp_steps st points
    st' points'] when the loop, in state [st] with [points] still to
    process, comes after some number of decay-only and sample steps to
    state [st'] with [points'] still to process. *)
Inductive xp_steps (weight secsDelta : dbl)
  : xp_state -> list RideFilePoint -> xp_state -> list RideFilePoint -> Prop :=
| xp_here st points :
    xp_steps weight secsDelta st points st points
| xp_decay st point rest st' points' :
    gap_cond secsDelta st point = true ->
    xp_steps weight secsDelta (decay_step secsDelta st) (point :: rest) st' points' ->
    xp_steps weight secsDelta st (point :: rest) st' points'
| xp_sample st point rest st' points' :
    gap_cond secsDelta st point = false ->
    xp_steps weight secsDelta (sample_step weight secsDelta st point) rest st' points' ->
    xp_steps weight secsDelta st (point :: rest) st' points'.

(** [n] samples of constant speed [speed] (km/h), one every [dt] seconds
    from [dt] on. *)
Fixpoint steady_from (start dt speed : R) (n : nat) : list RideFilePoint :=
  match n with
  | O => []
  | S n' => mkPoint (start + dt) speed :: steady_from (start + dt) dt speed n'
  end.

Definition steady (dt speed : R) (n : nat) : list RideFilePoint :=
  steady_from 0 dt speed n.

(** The smoothing constants and the update of the weighted value for a
    sample of a given power, in binary64: the same expressions as
    [sampsPerWindow], [attenuation], [sampleWeight] and the weighted
    value of [sample_step], on primitive floats. *)
Definition sampsPerWindow_b64 (secsDelta : float) : float :=
  (25 / secsDelta)%float.

Definition attenuation_b64 (secsDelta : float) : float :=
  (sampsPerWindow_b64 secsDelta / (sampsPerWindow_b64 secsDelta + secsDelta))%float.

Definition sampleWeight_b64 (secsDelta : float) : float :=
  (secsDelta / (sampsPerWindow_b64 secsDelta + secsDelta))%float.

Definition weighted_step_b64 (secsDelta power weighted : float) : float :=
  (weighted * attenuation_b64 secsDelta + sampleWeight_b64 secsDelta * power)%float.

(** The weighted value after [n] samples of the same power, without gaps. *)
Fixpoint weighted_after_b64 (secsDelta power weighted : float) (n : nat) : float :=
  match n with
  | O => weighted
  | S n' =>
      weighted_after_b64 secsDelta power
        (weighted_step_b64 secsDelta power weighted) n'
  end.

(** Sums for the steady state.  With the weighted value [P - d] before a
    sample of power [P], it is [P - d*a] after it: [cube_sum P a d n] is
    the sum of the cubes of the weighted value over the next [n] samples,
    and [geo_sum a x n] is x*a + x*a^2 + ... + x*a^n. *)
Fixpoint cube_sum (P a d : R) (n : nat) : R :=
  match n with
  | O => 0
  | S n' => (P - d * a) ^ 3 + cube_sum P a (d * a) n'
  end.

Fixpoint geo_sum (a x : R) (n : nat) : R :=
  match n with
  | O => 0
  | S n' => x * a + geo_sum a (x * a) n'
  end.

(** A decimal reading for [QString::toInt], for the examples: an optional
    minus sign and decimal digits; any other string reads as 0. *)
Definition digit_of (c : ascii) : option Z :=
  let n := nat_of_ascii c in
  if (48 <=? n)%nat && (n <=? 57)%nat then Some (Z.of_nat (n - 48)) else None.

Fixpoint digits_value (acc : Z) (s : string) : option Z :=
  match s with
  | EmptyString => Some acc
  | String c rest =>
      match digit_of c with
      | Some d => digits_value (10 * acc + d) rest
      | None => None
      end
  end.

Definition toInt_decimal (s : string) : Z :=
  match s with
  | EmptyString => 0
  | String "-"%char rest =>
      match rest, digits_value 0 rest with
      | String _ _, Some v => - v
      | _, _ => 0
      end
  | _ => match digits_value 0 s with Some v => v | None => 0 end
  end.

(** An athlete without configured pace zones, and one with a single
    range of critical velocity 3.6 km/h. *)
Definition no_zones : Context := mkContext (mkZones (fun _ => -1)%Z (fun _ => 0)).

(* ===================================================================== *)
(** ** Facts about the number model *)
(* ===================================================================== *)

Lemma Ris_zero_true (r : R) : r = 0 -> Ris_zero r = true.
Proof. intros ->. unfold Ris_zero. destruct (Req_dec_T 0 0); congruence. Qed.

Lemma Ris_zero_false (r : R) : r <> 0 -> Ris_zero r = false.
Proof. intros H. unfold Ris_zero. destruct (Req_dec_T r 0); congruence. Qed.

Lemma Rsign_pos_true (r : R) : 0 < r -> Rsign_pos r = true.
Proof. intros H. unfold Rsign_pos. destruct (Rlt_dec 0 r); [reflexivity | contradiction]. Qed.

Lemma Rsign_pos_false (r : R) : r <= 0 -> Rsign_pos r = false.
Proof. intros H. unfold Rsign_pos. destruct (Rlt_dec 0 r); [lra | reflexivity]. Qed.

Lemma Rsign_neg_true (r : R) : r < 0 -> Rsign_neg r = true.
Proof. intros H. unfold Rsign_neg. destruct (Rlt_dec r 0); [reflexivity | contradiction]. Qed.

Lemma Rsign_neg_false (r : R) : 0 <= r -> Rsign_neg r = false.
Proof. intros H. unfold Rsign_neg. destruct (Rlt_dec r 0); [lra | reflexivity]. Qed.

Lemma ddiv_fin (a b : R) : b <> 0 -> (Num a / Num b)%dbl = Num (a / b).
Proof. intros H. simpl. now rewrite Ris_zero_false. Qed.

Lemma ddiv_zero_zero : (Num 0 / Num 0)%dbl = NaN.
Proof. simpl. now rewrite Ris_zero_true. Qed.

Lemma ddiv_pos_zero (a : R) : 0 < a -> (Num a / Num 0)%dbl = PInf.
Proof.
  intros H. simpl. rewrite (Ris_zero_true 0), (Ris_zero_false a), Rsign_pos_true;
    [reflexivity | assumption | lra | reflexivity].
Qed.

Lemma dgt_fin_true (a b : R) : b < a -> dgt (Num a) (Num b) = true.
Proof. intros H. simpl. destruct (Rlt_dec b a); [reflexivity | contradiction]. Qed.

Lemma dgt_fin_false (a b : R) : a <= b -> dgt (Num a) (Num b) = false.
Proof. intros H. simpl. destruct (Rlt_dec b a); [lra | reflexivity]. Qed.

Lemma truthy_zero : truthy (Num 0) = false.
Proof. simpl. now rewrite Ris_zero_true. Qed.

Lemma truthy_nonzero (r : R) : r <> 0 -> truthy (Num r) = true.
Proof. intros H. simpl. now rewrite Ris_zero_false. Qed.

Lemma Int_part_IZR (z : Z) : Int_part (IZR z) = z.
Proof. symmetry. apply Int_part_spec. lra. Qed.

Lemma is_int_IZR (z : Z) : is_int (IZR z) = true.
Proof.
  unfold is_int. rewrite Int_part_IZR.
  destruct (Req_dec_T (IZR z) (IZR z)); congruence.
Qed.

Lemma Int_part_third : Int_part (1 / 3) = 0%Z.
Proof. symmetry. apply Int_part_spec. lra. Qed.

Lemma is_int_third : is_int (1 / 3) = false.
Proof.
  unfold is_int. rewrite Int_part_third.
  destruct (Req_dec_T 0 (1 / 3)); [lra | reflexivity].
Qed.

Lemma third_fin : (Num 1 / Num 3)%dbl = Num (1 / 3).
Proof. apply ddiv_fin. lra. Qed.

(** [pow(x, 3.0)] is the cube, for every finite [x]. *)
Lemma pow_3 (x : R) : pow (Num x) (Num 3) = Num (x ^ 3).
Proof.
  unfold pow. rewrite Ris_zero_false by lra.
  unfold pow_fin. rewrite (is_int_IZR 3), (Rsign_neg_false 3) by lra.
  rewrite andb_false_r, (Int_part_IZR 3). reflexivity.
Qed.

(** [pow(x, 1/3.0)] on the finite values: the cube root of a positive
    number, 0 at 0, NaN below 0. *)
Lemma pow_third_pos (x : R) :
  0 < x -> pow (Num x) (Num (1 / 3)) = Num (Rpower x (1 / 3)).
Proof.
  intros H. unfold pow. rewrite Ris_zero_false by lra.
  unfold pow_fin. now rewrite is_int_third, Rsign_pos_true.
Qed.

Lemma pow_third_zero : pow (Num 0) (Num (1 / 3)) = Num 0.
Proof.
  unfold pow. rewrite Ris_zero_false by lra.
  unfold pow_fin.
  rewrite is_int_third, (Rsign_pos_false 0), (Ris_zero_true 0), Rsign_pos_true;
    [reflexivity | lra | reflexivity | lra].
Qed.

Lemma pow_third_neg (x : R) : x < 0 -> pow (Num x) (Num (1 / 3)) = NaN.
Proof.
  intros H. unfold pow. rewrite Ris_zero_false by lra.
  unfold pow_fin.
  rewrite is_int_third, Rsign_pos_false, Ris_zero_false; [reflexivity | lra | lra].
Qed.

Lemma pow_third_NaN : pow NaN (Num (1 / 3)) = NaN.
Proof. unfold pow. now rewrite Ris_zero_false by lra. Qed.

(** The cube root undoes the cube on the positive numbers. *)
Lemma Rpower_third_cube (x : R) : 0 < x -> Rpower (x ^ 3) (1 / 3) = x.
Proof.
  intros H.
  rewrite <- (Rpower_pow 3 x H), Rpower_mult.
  replace (INR 3 * (1 / 3)) with 1 by (simpl; lra).
  now apply Rpower_1.
Qed.

Lemma cube_Rpower_third (x : R) : 0 < x -> Rpower x (1 / 3) ^ 3 = x.
Proof.
  intros H.
  rewrite <- Rpower_pow by apply exp_pos.
  rewrite Rpower_mult.
  replace (1 / 3 * INR 3) with 1 by (simpl; lra).
  now apply Rpower_1.
Qed.

Example toInt_decimal_examples :
  toInt_decimal "0" = 0%Z /\ toInt_decimal "42" = 42%Z
  /\ toInt_decimal "-7" = (-7)%Z /\ toInt_decimal "1.5" = 0%Z
  /\ toInt_decimal "" = 0%Z.
Proof. repeat split; reflexivity. Qed.

(** The drag model on finite arguments. *)
Lemma swimming_power_fin (weight speed : R) :
  swimming_power (Num weight) (Num speed)
  = Num ((0.35 * weight + 2) / 0.6 * speed ^ 3).
Proof.
  unfold swimming_power. rewrite pow_3. cbn [dmul dadd].
  rewrite ddiv_fin by lra. reflexivity.
Qed.

(* ===================================================================== *)
(** ** The drag model and its inverse *)
(* ===================================================================== *)

Lemma swimming_speed_fin (weight power : R) :
  0 < 0.35 * weight + 2 -> 0 <= power ->
  exists speed : R,
    swimming_speed (Num weight) (Num power) = Num speed
    /\ 0 <= speed
    /\ speed ^ 3 = 0.6 / (0.35 * weight + 2) * power.
Proof.
  intros HK Hp. unfold swimming_speed. cbn [dmul dadd].
  rewrite ddiv_fin by lra. cbn [dmul]. rewrite third_fin.
  destruct (Rle_lt_or_eq_dec 0 power Hp) as [Hpos | <-].
  - assert (Hx : 0 < 0.6 / (0.35 * weight + 2) * power).
    { apply Rmult_lt_0_compat; [apply Rdiv_lt_0_compat; lra | assumption]. }
    rewrite pow_third_pos by assumption.
    eexists. split; [reflexivity | split].
    + left. apply exp_pos.
    + now apply cube_Rpower_third.
  - rewrite Rmult_0_r, pow_third_zero.
    exists 0. split; [reflexivity | split; lra].
Qed.

(** C4. Round trip of the drag model: for a weight whose drag factor
    0.35*weight + 2 is positive (every weight from 0 up) and a power
    p >= 0, the power at the speed that [swimming_speed] gives for p is p
    again (exactly so in real arithmetic). *)
Theorem swimming_power_speed_roundtrip (weight p : R) :
  0 < 0.35 * weight + 2 -> 0 <= p ->
  swimming_power (Num weight) (swimming_speed (Num weight) (Num p)) = Num p.
Proof.
  intros HK Hp.
  destruct (swimming_speed_fin weight p HK Hp) as (speed & -> & _ & Hcube).
  rewrite swimming_power_fin, Hcube. f_equal. field. lra.
Qed.

Lemma swimming_power_speed_roundtrip_witness :
  swimming_power (Num 70) (swimming_speed (Num 70) (Num 76.32)) = Num 76.32.
Proof. apply swimming_power_speed_roundtrip; lra. Defined.

(* ===================================================================== *)
(** ** The smoothing constants *)
(* ===================================================================== *)

Lemma window_sum_nonzero (dt : R) : dt <> 0 -> 25 / dt + dt <> 0.
Proof.
  intros Hdt Hsum.
  assert (H : dt * (25 / dt + dt) = 25 + dt * dt) by (field; assumption).
  rewrite Hsum in H. nra.
Qed.

Lemma attenuation_fin (dt : R) : dt <> 0 -> attenuation (Num dt) = Num (att dt).
Proof.
  intros Hdt. unfold attenuation, sampsPerWindow.
  rewrite ddiv_fin by assumption. cbn [dadd].
  now rewrite ddiv_fin by now apply window_sum_nonzero.
Qed.

Lemma sampleWeight_fin (dt : R) : dt <> 0 -> sampleWeight (Num dt) = Num (swt dt).
Proof.
  intros Hdt. unfold sampleWeight, sampsPerWindow.
  rewrite ddiv_fin by assumption. cbn [dadd].
  now rewrite ddiv_fin by now apply window_sum_nonzero.
Qed.

Lemma att_swt_sum (dt : R) : dt <> 0 -> att dt + swt dt = 1.
Proof.
  intros Hdt. unfold att, swt.
  pose proof (window_sum_nonzero dt Hdt) as Hs.
  replace (25 / dt / (25 / dt + dt) + dt / (25 / dt + dt))
    with ((25 / dt + dt) * / (25 / dt + dt)) by (unfold Rdiv; ring).
  now apply Rinv_r.
Qed.

Lemma att_closed (dt : R) : dt <> 0 -> att dt = 25 / (25 + dt * dt).
Proof. intros Hdt. unfold att. field. split; [nra | assumption]. Qed.

Lemma att_bounds (dt : R) : dt <> 0 -> 0 < att dt < 1.
Proof.
  intros Hdt. rewrite att_closed by assumption.
  assert (0 < dt * dt) by nra.
  split.
  - apply Rdiv_lt_0_compat; lra.
  - apply Rmult_lt_reg_r with (25 + dt * dt); [lra |].
    unfold Rdiv. rewrite Rmult_assoc, Rinv_l by lra. lra.
Qed.

Lemma swt_eq (dt : R) : dt <> 0 -> swt dt = 1 - att dt.
Proof. intros Hdt. pose proof (att_swt_sum dt Hdt). lra. Qed.

(** At a zero interval the window is infinite and the attenuation NaN. *)
Lemma attenuation_zero : attenuation (Num 0) = NaN.
Proof.
  unfold attenuation, sampsPerWindow.
  now rewrite ddiv_pos_zero by lra.
Qed.

Lemma sampleWeight_zero : sampleWeight (Num 0) = Num 0.
Proof.
  unfold sampleWeight, sampsPerWindow.
  now rewrite ddiv_pos_zero by lra.
Qed.

(* ===================================================================== *)
(** ** Degenerate input to XPowerSwim *)
(* ===================================================================== *)

Lemma XPowerSwim_swim (fuel : nat) (ride : RideFile) (m : RideMetric) (st : xp_state) :
  isSwim ride = true ->
  foreach_point (Num (getWeight ride)) (Num (recIntSecs ride)) fuel xp_init
    (dataPoints ride) = Ret st ->
  XPowerSwim_compute fuel ride m
  = Ret {| value_ := pow (total st / of_int (count st))%dbl (Num (1 / 3));
           count_ := (of_int (count st) * Num (recIntSecs ride))%dbl |}.
Proof.
  intros Hswim Hloop. unfold XPowerSwim_compute.
  rewrite Hswim, Hloop, third_fin. reflexivity.
Qed.

Lemma while_gap_skip (secsDelta : dbl) (fuel : nat) (st : xp_state)
    (point : RideFilePoint) :
  gap_cond secsDelta st point = false -> while_gap secsDelta fuel st point = Ret st.
Proof. intros H. destruct fuel; simpl; now rewrite H. Qed.

Lemma gap_cond_negligible (secsDelta : dbl) (st : xp_state) (point : RideFilePoint) (w : R) :
  weighted st = Num w -> w <= 0.1 -> gap_cond secsDelta st point = false.
Proof.
  intros Hw Hle. unfold gap_cond, NEGLIGIBLE.
  now rewrite Hw, dgt_fin_false.
Qed.

(** A swim without samples: the mean of the cubes is 0/0. *)
Lemma XPowerSwim_no_samples (fuel : nat) (ride : RideFile) (m : RideMetric) :
  isSwim ride = true -> dataPoints ride = [] ->
  XPowerSwim_compute fuel ride m = Ret {| value_ := NaN; count_ := Num 0 |}.
Proof.
  intros Hswim Hpts.
  rewrite (XPowerSwim_swim fuel ride m xp_init Hswim) by now rewrite Hpts.
  cbn [xp_init total count]. unfold of_int.
  rewrite ddiv_zero_zero, pow_third_NaN. cbn [dmul]. now rewrite Rmult_0_l.
Qed.

(** C1. Degenerate input does not give the fallback (value 0, duration
    0): a swim with no samples has value NaN (the mean 0.0/0 is taken
    unguarded); so has a swim with interval 0 and one sample (the window
    25/0 is infinite and the attenuation NaN); and with interval -1 one
    sample at 3.6 km/h gives a positive value and the duration -1. *)
Theorem XPowerSwim_degenerate_input (fuel : nat) (m : RideMetric) :
  XPowerSwim_compute fuel (mkRide Swim 70 1 [] ∅ 0) m
  = Ret {| value_ := NaN; count_ := Num 0 |}
  /\ XPowerSwim_compute fuel (mkRide Swim 70 0 [mkPoint 0 3.6] ∅ 0) m
     = Ret {| value_ := NaN; count_ := Num 0 |}
  /\ XPowerSwim_compute fuel (mkRide Swim 70 (-1) [mkPoint 0 3.6] ∅ 0) m
     = Ret {| value_ := Num (26.5 / 0.6 / 26); count_ := Num (-1) |}.
Proof.
  split; [| split].
  - now apply XPowerSwim_no_samples.
  - erewrite XPowerSwim_swim; [| reflexivity |].
    2:{ cbn [dataPoints recIntSecs getWeight foreach_point].
        rewrite while_gap_skip
          by (apply gap_cond_negligible with (w := 0); [reflexivity | lra]).
        reflexivity. }
    unfold sample_step. rewrite attenuation_zero.
    cbn [xp_init weighted total count dmul dadd recIntSecs].
    replace (pow NaN (Num 3)) with NaN
      by (unfold pow; now rewrite Ris_zero_false by lra).
    cbn [dadd]. unfold of_int. cbn [ddiv dmul].
    rewrite pow_third_NaN, Rmult_0_r. reflexivity.
  - assert (Hw : att (-1) = 25 / 26) by (rewrite att_closed; lra).
    assert (Hs : swt (-1) = 1 / 26) by (rewrite swt_eq, Hw; lra).
    erewrite XPowerSwim_swim; [| reflexivity |].
    2:{ cbn [dataPoints recIntSecs getWeight foreach_point].
        rewrite while_gap_skip
          by (apply gap_cond_negligible with (w := 0); [reflexivity | lra]).
        reflexivity. }
    unfold sample_step.
    rewrite attenuation_fin, sampleWeight_fin, Hw, Hs by lra.
    cbn [kph]. rewrite (ddiv_fin 3.6 3.6), swimming_power_fin by lra.
    cbn [xp_init weighted total count dmul dadd recIntSecs]. rewrite pow_3.
    cbn [dadd]. unfold of_int. change (0 + 1)%Z with 1%Z.
    rewrite ddiv_fin by lra.
    replace ((0 + (0 * (25 / 26)
                   + 1 / 26 * ((0.35 * 70 + 2) / 0.6 * (3.6 / 3.6) ^ 3)) ^ 3)
             / 1)
      with ((26.5 / 0.6 / 26) ^ 3) by lra.
    rewrite pow_third_pos by (apply pow_lt; lra).
    rewrite Rpower_third_cube by lra.
    cbn [dmul]. now rewrite Rmult_1_l.
Qed.

(* ===================================================================== *)
(** ** Relative intensity and score at a zero threshold *)
(* ===================================================================== *)

Lemma getTag_absent (ride : RideFile) (name fallback : string) :
  tags ride !! name = None -> getTag ride name fallback = fallback.
Proof. intros H. unfold getTag. now rewrite H. Qed.


Lemma dep_Some (deps : gmap string RideMetric) (sym : string) (d : RideMetric) :
  deps !! sym = Some d -> dep deps sym = Ret d.
Proof. intros H. unfold dep. now rewrite H. Qed.

Lemma dep_None (deps : gmap string RideMetric) (sym : string) :
  deps !! sym = None -> dep deps sym = AssertFailed.
Proof. intros H. unfold dep. now rewrite H. Qed.



(* ===================================================================== *)
(** ** The steps of the estimator on finite values *)
(* ===================================================================== *)

Lemma point_power_fin (weight : R) (point : RideFilePoint) :
  swimming_power (Num weight) (Num (kph point) / Num 3.6)%dbl
  = Num (inst_power weight point).
Proof. rewrite ddiv_fin by lra. apply swimming_power_fin. Qed.

Lemma decay_step_fin (dt w : R) (st : xp_state) :
  dt <> 0 -> weighted st = Num w ->
  decay_step (Num dt) st
  = {| weighted := Num (w * att dt);
       lastSecs := (lastSecs st + Num dt)%dbl;
       total := (total st + Num ((w * att dt) ^ 3))%dbl;
       count := (count st + 1)%Z |}.
Proof.
  intros Hdt Hw. unfold decay_step.
  rewrite Hw, attenuation_fin by assumption.
  cbn [dmul]. now rewrite pow_3.
Qed.

Lemma sample_step_fin (weight dt w : R) (st : xp_state) (point : RideFilePoint) :
  dt <> 0 -> weighted st = Num w ->
  sample_step (Num weight) (Num dt) st point
  = {| weighted := Num (w * att dt + swt dt * inst_power weight point);
       lastSecs := Num (secs point);
       total := (total st
                 + Num ((w * att dt + swt dt * inst_power weight point) ^ 3))%dbl;
       count := (count st + 1)%Z |}.
Proof.
  intros Hdt Hw. unfold sample_step.
  rewrite Hw, attenuation_fin, sampleWeight_fin, point_power_fin by assumption.
  cbn [dmul dadd]. now rewrite pow_3.
Qed.

Lemma inst_power_nonneg (weight : R) (point : RideFilePoint) :
  0 <= 0.35 * weight + 2 -> 0 <= kph point -> 0 <= inst_power weight point.
Proof.
  intros HK Hv. unfold inst_power.
  apply Rmult_le_pos.
  - apply Rmult_le_pos; [assumption | lra].
  - apply pow_le. apply Rmult_le_pos; lra.
Qed.

(* ===================================================================== *)
(** ** One hour at threshold power *)
(* ===================================================================== *)

(** C5, as stated, fails at the threshold 0.  A swim of one sample at
    speed 0 with the interval 3600 s, without CV tag or configured zones:
    xPowerSwim and STP both have the value 0, the duration is 3600 s, and
    SwimScore is 0, not 100. *)
Lemma SwimScore_hour_at_zero_threshold :
  let ride := mkRide Swim 70 3600 [mkPoint 0 0] ∅ 0 in
  let fresh := {| value_ := Num 0; count_ := Num 1 |} in
  exists xPowerSwim stp sri score : RideMetric,
    XPowerSwim_compute 0 ride fresh = Ret xPowerSwim
    /\ STP_compute toInt_decimal ride no_zones fresh = Ret stp
    /\ SRI_compute ride
         (<["swimscore_tp" := stp]> (<["swimscore_xpower" := xPowerSwim]> ∅))
         fresh = Ret sri
    /\ SwimScore_compute ride
         (<["swimscore_ri" := sri]>
            (<["swimscore_tp" := stp]> (<["swimscore_xpower" := xPowerSwim]> ∅)))
         fresh = Ret score
    /\ value_ xPowerSwim = value_ stp
    /\ count_ xPowerSwim = Num 3600
    /\ value_ score = Num 0
    /\ value_ score <> Num 100.
Proof.
  intros ride fresh.
  exists {| value_ := Num 0; count_ := Num 3600 |},
         {| value_ := Num 0; count_ := Num 1 |},
         {| value_ := Num 0; count_ := Num 3600 |},
         {| value_ := Num 0; count_ := Num 1 |}.
  assert (Hxp : XPowerSwim_compute 0 ride fresh
                = Ret {| value_ := Num 0; count_ := Num 3600 |}).
  { erewrite XPowerSwim_swim; [| reflexivity |].
    2:{ cbn [ride dataPoints recIntSecs getWeight foreach_point].
        rewrite while_gap_skip
          by (apply gap_cond_negligible with (w := 0); [reflexivity | lra]).
        cbn [mbind result_bind].
        rewrite (sample_step_fin 70 3600 0) by (reflexivity || lra).
        reflexivity. }
    cbn [xp_init total count dadd recIntSecs ride]. unfold of_int.
    change (0 + 1)%Z with 1%Z. rewrite ddiv_fin by lra. cbn [dmul].
    unfold inst_power. cbn [kph].
    replace ((0 + (0 * att 3600 + swt 3600 * ((0.35 * 70 + 2) / 0.6 * (0 / 3.6) ^ 3)) ^ 3) / 1)
      with 0 by (simpl; unfold Rdiv; ring).
    rewrite pow_third_zero. now rewrite Rmult_1_l. }
  assert (Hstp : STP_compute toInt_decimal ride no_zones fresh
                 = Ret {| value_ := Num 0; count_ := Num 1 |}).
  { unfold STP_compute.
    cbn [ride isSwim discipline negb no_zones paceZones whichRange startDate].
    rewrite getTag_absent by reflexivity.
    change (toInt_decimal "0") with 0%Z. unfold of_int.
    rewrite truthy_zero. cbn [negb andb Z.leb Z.compare].
    rewrite ddiv_fin, swimming_power_fin by lra.
    unfold setValue. cbn [count_ fresh getWeight]. do 2 f_equal. f_equal.
    unfold Rdiv. simpl. ring. }
  split; [exact Hxp | split; [exact Hstp |]].
  split; [| split; [| split; [reflexivity | split; [reflexivity | split]]]].
  - unfold SRI_compute. cbn [ride isSwim discipline negb].
    rewrite (dep_Some _ "swimscore_xpower" {| value_ := Num 0; count_ := Num 3600 |})
      by reflexivity.
    rewrite (dep_Some _ "swimscore_tp" {| value_ := Num 0; count_ := Num 1 |})
      by reflexivity.
    cbn [mbind result_bind value_]. now rewrite truthy_zero.
  - unfold SwimScore_compute. cbn [ride isSwim discipline negb].
    rewrite (dep_Some _ "swimscore_xpower" {| value_ := Num 0; count_ := Num 3600 |})
      by reflexivity.
    rewrite (dep_Some _ "swimscore_ri" {| value_ := Num 0; count_ := Num 3600 |})
      by reflexivity.
    rewrite (dep_Some _ "swimscore_tp" {| value_ := Num 0; count_ := Num 1 |})
      by reflexivity.
    cbn [mbind result_bind value_ count_ dmul].
    now rewrite Rmult_0_l, truthy_zero.
  - reflexivity.
  - cbn [value_]. intros H. injection H. lra.
Qed.

(** C5 (amended). For a swim where xPowerSwim and STP have the same
    finite, non-zero value and the duration of xPowerSwim is 3600 s, SRI
    computed from them followed by SwimScore gives exactly 100. *)
Theorem SwimScore_hour_at_threshold
    (ride : RideFile) (deps : gmap string RideMetric)
    (m_sri m_score xPowerSwim stp : RideMetric) (x : R) :
  isSwim ride = true ->
  deps !! "swimscore_xpower" = Some xPowerSwim ->
  deps !! "swimscore_tp" = Some stp ->
  value_ xPowerSwim = Num x ->
  value_ stp = Num x ->
  x <> 0 ->
  count_ xPowerSwim = Num 3600 ->
  exists sri : RideMetric,
    SRI_compute ride deps m_sri = Ret sri
    /\ SwimScore_compute ride (<["swimscore_ri" := sri]> deps) m_score
       = Ret (setValue (Num 100) m_score).
Proof.
  intros Hswim Hxp Htp Hvx Hvt Hx Hcount.
  exists {| value_ := Num (x / x); count_ := Num 3600 |}. split.
  - unfold SRI_compute.
    rewrite Hswim, (dep_Some _ _ _ Hxp), (dep_Some _ _ _ Htp).
    cbn [negb mbind result_bind].
    rewrite Hvx, Hvt, Hcount, truthy_nonzero, ddiv_fin by assumption.
    reflexivity.
  - unfold SwimScore_compute. rewrite Hswim.
    rewrite (dep_Some _ "swimscore_xpower" xPowerSwim)
      by now rewrite lookup_insert_ne.
    rewrite (dep_Some _ "swimscore_ri" {| value_ := Num (x / x); count_ := Num 3600 |})
      by now rewrite lookup_insert_eq.
    rewrite (dep_Some _ "swimscore_tp" stp) by now rewrite lookup_insert_ne.
    cbn [negb mbind result_bind value_].
    rewrite Hvx, Hvt, Hcount. cbn [dmul].
    rewrite truthy_nonzero, ddiv_fin by nra. cbn [dmul].
    do 3 f_equal. field. assumption.
Qed.

Lemma SwimScore_hour_at_threshold_witness :
  let xp := {| value_ := Num 76; count_ := Num 3600 |} in
  let stp := {| value_ := Num 76; count_ := Num 1 |} in
  let deps : gmap string RideMetric :=
    <["swimscore_tp" := stp]> (<["swimscore_xpower" := xp]> ∅) in
  let ride := mkRide Swim 70 1 [] ∅ 0 in
  let m := {| value_ := Num 0; count_ := Num 1 |} in
  exists sri : RideMetric,
    SRI_compute ride deps m = Ret sri
    /\ SwimScore_compute ride (<["swimscore_ri" := sri]> deps) m
       = Ret (setValue (Num 100) m).
Proof.
  intros xp stp deps ride m.
  apply (SwimScore_hour_at_threshold ride deps m m xp stp 76);
    try reflexivity.
  lra.
Defined.

(* ===================================================================== *)
(** ** Threshold power *)
(* ===================================================================== *)



(* ===================================================================== *)
(** ** Activities that are not swims *)
(* ===================================================================== *)

Lemma evaluate_absent (plan : list MetricDefinition) (ride : RideFile)
    (context : Context) (fresh : RideMetric)
    (done res : gmap string RideMetric) (s : string) :
  evaluate plan ride context fresh done = Ret res ->
  done !! s = None ->
  (forall d, In d plan -> symbol d = s -> applicable d ride = false) ->
  res !! s = None.
Proof.
  revert done. induction plan as [| d plan IH]; intros done Heval Hdone Hplan.
  - simpl in Heval. now inversion Heval; subst.
  - simpl in Heval.
    destruct (applicable d ride) eqn:Happ.
    + destruct (compute d ride context done fresh) as [m | |] eqn:Hcomp;
        cbn [mbind result_bind] in Heval; try discriminate.
      apply (IH (<[symbol d := m]> done)); [assumption | |].
      * rewrite lookup_insert_ne; [assumption |].
        intros Hsym. rewrite (Hplan d (or_introl eq_refl) Hsym) in Happ.
        discriminate.
      * intros d' Hin. apply Hplan. now right.
    + apply (IH done); [assumption | assumption |].
      intros d' Hin. apply Hplan. now right.
Qed.

Lemma NoDup_symbol_unique (plan : list MetricDefinition) (d d' : MetricDefinition) :
  NoDup (map symbol plan) -> In d plan -> In d' plan ->
  symbol d' = symbol d -> d' = d.
Proof.
  induction plan as [| e plan IH]; intros Hnd Hd Hd' Hsym; [destruct Hd |].
  simpl in Hnd. inversion Hnd as [| ? ? Hnotin Hnd']; subst.
  destruct Hd as [-> | Hd], Hd' as [-> | Hd'].
  - reflexivity.
  - exfalso. apply Hnotin. rewrite <- Hsym. apply list_elem_of_In. now apply in_map.
  - exfalso. apply Hnotin. rewrite Hsym. apply list_elem_of_In. now apply in_map.
  - now apply IH.
Qed.

(** C7. For an activity that is not a swim, each of XPowerSwim,
    XPaceSwim, STP, SRI and SwimScore returns from [compute] at once and
    leaves the metric object as it was, whatever the dependencies (this
    is no failure); none of them is relevant for the activity; and in the
    result set of an evaluation, over any plan with distinct symbols,
    none of their symbols has a value. *)
Theorem swim_metrics_absent_for_non_swim
    (fuel : nat) (toInt : string -> Z) (ride : RideFile) (context : Context)
    (deps : gmap string RideMetric) (m : RideMetric) :
  isSwim ride = false ->
  (XPowerSwim_compute fuel ride m = Ret m
   /\ XPaceSwim_compute ride deps m = Ret m
   /\ STP_compute toInt ride context m = Ret m
   /\ SRI_compute ride deps m = Ret m
   /\ SwimScore_compute ride deps m = Ret m)
  /\ Forall (fun d => applicable d ride = false) (addAllSwimScore fuel toInt)
  /\ evaluate (addAllSwimScore fuel toInt) ride context m ∅ = Ret ∅
  /\ (forall plan res d,
        NoDup (map symbol plan) ->
        In d plan -> In d (addAllSwimScore fuel toInt) ->
        evaluate plan ride context m ∅ = Ret res ->
        res !! symbol d = None).
Proof.
  intros Hswim.
  assert (Hall : Forall (fun d => applicable d ride = false)
                   (addAllSwimScore fuel toInt)).
  { unfold addAllSwimScore. repeat constructor; exact Hswim. }
  split; [| split; [exact Hall | split]].
  - unfold XPowerSwim_compute, XPaceSwim_compute, STP_compute, SRI_compute,
      SwimScore_compute.
    rewrite Hswim. cbn [negb]. repeat split; reflexivity.
  - unfold addAllSwimScore, evaluate.
    cbn [applicable XPowerSwim_def STP_def XPaceSwim_def SRI_def SwimScore_def].
    unfold XPowerSwim_isRelevantForRide. now rewrite Hswim.
  - intros plan res d Hnd Hin Hswimdef Heval.
    apply (evaluate_absent plan ride context m ∅ res); [assumption | apply lookup_empty |].
    intros d' Hin' Hsym.
    rewrite (NoDup_symbol_unique plan d d' Hnd Hin Hin' Hsym).
    rewrite Forall_forall in Hall. apply Hall. now apply list_elem_of_In.
Qed.

Lemma swim_metrics_absent_for_non_swim_witness :
  let ride := mkRide Bike 70 1 [mkPoint 0 30] ∅ 0 in
  let m := {| value_ := Num 0; count_ := Num 1 |} in
  evaluate (addAllSwimScore 0 toInt_decimal) ride no_zones m ∅ = Ret ∅.
Proof.
  intros ride m.
  apply (swim_metrics_absent_for_non_swim 0 toInt_decimal ride no_zones ∅ m eq_refl).
Defined.

(* ===================================================================== *)
(** ** TriScore *)
(* ===================================================================== *)

(** C8. TriScore sets as its value the value of "swimscore" for a swim,
    of "govss" for a run and of "skiba_bike_score" for any other
    activity; when the dependency selected by the discipline has no
    value, the assertion on it fails. *)
Theorem TriScore_selects_by_discipline
    (ride : RideFile) (deps : gmap string RideMetric) (m : RideMetric) :
  let selected :=
    match discipline ride with
    | Swim => "swimscore"
    | Run => "govss"
    | Bike | Other => "skiba_bike_score"
    end in
  (forall d, deps !! selected = Some d ->
     TriScore_compute ride deps m = Ret (setValue (value_ d) m))
  /\ (deps !! selected = None -> TriScore_compute ride deps m = AssertFailed).
Proof.
  intros selected. unfold TriScore_compute, isSwim, isRun. subst selected.
  split.
  - intros d Hd. destruct (discipline ride); now rewrite (dep_Some _ _ _ Hd).
  - intros Hd. destruct (discipline ride); now rewrite (dep_None _ _ Hd).
Qed.

Lemma TriScore_selects_by_discipline_witness :
  let deps : gmap string RideMetric :=
    <["govss" := {| value_ := Num 55; count_ := Num 1 |}]>
      (<["swimscore" := {| value_ := Num 40; count_ := Num 1 |}]> ∅) in
  let m := {| value_ := Num 0; count_ := Num 1 |} in
  TriScore_compute (mkRide Swim 70 1 [] ∅ 0) deps m = Ret (setValue (Num 40) m)
  /\ TriScore_compute (mkRide Run 70 1 [] ∅ 0) deps m = Ret (setValue (Num 55) m)
  /\ TriScore_compute (mkRide Bike 70 1 [] ∅ 0) deps m = AssertFailed.
Proof.
  intros deps m. split; [| split].
  - now apply (proj1 (TriScore_selects_by_discipline (mkRide Swim 70 1 [] ∅ 0) deps m)
                 {| value_ := Num 40; count_ := Num 1 |}).
  - now apply (proj1 (TriScore_selects_by_discipline (mkRide Run 70 1 [] ∅ 0) deps m)
                 {| value_ := Num 55; count_ := Num 1 |}).
  - now apply (proj2 (TriScore_selects_by_discipline (mkRide Bike 70 1 [] ∅ 0) deps m)).
Defined.

(* ===================================================================== *)
(** ** Gaps between samples *)
(* ===================================================================== *)

Lemma gap_cond_true (dt w l : R) (st : xp_state) (point : RideFilePoint) :
  weighted st = Num w -> lastSecs st = Num l ->
  0.1 < w -> l + dt + 0.1 < secs point ->
  gap_cond (Num dt) st point = true.
Proof.
  intros Hw Hl Hbig Hgap. unfold gap_cond, NEGLIGIBLE, EPSILON.
  rewrite Hw, Hl. cbn [dadd].
  now rewrite !dgt_fin_true.
Qed.

Lemma gap_cond_closed (dt l : R) (st : xp_state) (point : RideFilePoint) :
  lastSecs st = Num l -> secs point <= l + dt + 0.1 ->
  gap_cond (Num dt) st point = false.
Proof.
  intros Hl Hgap. unfold gap_cond, EPSILON.
  rewrite Hl. cbn [dadd].
  rewrite (dgt_fin_false (secs point)) by assumption.
  apply andb_false_r.
Qed.

(** C2, as stated, fails.  With the interval 1 s, a first sample at speed
    0 leaves the weighted value at 0, and a second sample 3 s later is
    processed without any decay-only step: two steps in all.  With the
    interval 0.1 s, the tolerance 0.1 s closes the gap of 0.3 s after one
    decay-only step, although the weighted value is far above 0.1. *)
Lemma gap_of_three_intervals_fewer_steps :
  (let p1 := mkPoint 0 0 in
   let p2 := mkPoint 3 3.6 in
   let st1 := sample_step (Num 70) (Num 1) xp_init p1 in
   secs p2 = secs p1 + 3 * 1
   /\ while_gap (Num 1) 2 st1 p2 = Ret st1
   /\ exists st, foreach_point (Num 70) (Num 1) 2 xp_init [p1; p2] = Ret st
                 /\ count st = 2%Z)
  /\ (let p1 := mkPoint 0 36 in
      let p2 := mkPoint 0.3 36 in
      let st1 := sample_step (Num 70) (Num 0.1) xp_init p1 in
      secs p2 = secs p1 + 3 * 0.1
      /\ while_gap (Num 0.1) 2 st1 p2 = Ret (decay_step (Num 0.1) st1)
      /\ decay_step (Num 0.1) st1
         <> decay_step (Num 0.1) (decay_step (Num 0.1) st1)).
Proof.
  split.
  - intros p1 p2 st1.
    assert (Hst1 : weighted st1 = Num 0).
    { unfold st1. rewrite (sample_step_fin 70 1 0) by (reflexivity || lra).
      cbn [weighted]. f_equal. unfold inst_power. cbn [p1 kph].
      unfold Rdiv. ring. }
    assert (Hskip : forall fuel, while_gap (Num 1) fuel st1 p2 = Ret st1).
    { intros fuel. apply while_gap_skip.
      apply gap_cond_negligible with (w := 0); [exact Hst1 | lra]. }
    split; [cbn; lra | split; [apply Hskip |]].
    eexists. split.
    + cbn [foreach_point].
      rewrite while_gap_skip
        by (apply gap_cond_negligible with (w := 0); [reflexivity | lra]).
      cbn [mbind result_bind]. fold st1. rewrite Hskip.
      cbn [mbind result_bind]. reflexivity.
    + reflexivity.
  - intros p1 p2 st1.
    assert (Ha : att 0.1 = 25 / 25.01) by (rewrite att_closed; lra).
    assert (Hs : swt 0.1 = 0.01 / 25.01) by (rewrite swt_eq, Ha; lra).
    assert (HP : inst_power 70 p1 = 26.5 / 0.6 * 1000).
    { unfold inst_power. cbn [p1 kph]. lra. }
    assert (Hst1 : st1 = {| weighted := Num (0.01 / 25.01 * (26.5 / 0.6 * 1000));
                            lastSecs := Num 0;
                            total := (Num 0 + Num ((0 * att 0.1 + swt 0.1 * inst_power 70 p1) ^ 3))%dbl;
                            count := 1 |}).
    { unfold st1. rewrite (sample_step_fin 70 0.1 0) by (reflexivity || lra).
      cbn [xp_init total count p1 secs]. f_equal. f_equal. rewrite Hs, HP. ring. }
    split; [cbn; lra | split].
    + cbn [while_gap].
      rewrite (gap_cond_true 0.1 (0.01 / 25.01 * (26.5 / 0.6 * 1000)) 0)
        by (rewrite ?Hst1; cbn; reflexivity || lra).
      rewrite gap_cond_closed with (l := 0 + 0.1); [reflexivity | | cbn; lra].
      rewrite Hst1. reflexivity.
    + intros Heq. apply (f_equal count) in Heq. cbn in Heq. lia.
Qed.

(** C2 (amended). When the interval exceeds the tolerance 0.1 s and the
    weighted value is still above 0.1 after one decay, a sample exactly
    3 intervals after the last one is preceded by exactly 2 decay-only
    steps: each multiplies the weighted value by the attenuation, adds no
    power, and counts as a step; then the sample is processed. *)
Theorem gap_of_three_intervals
    (weight dt w l : R) (st : xp_state) (point : RideFilePoint)
    (rest : list RideFilePoint) (fuel : nat) :
  0.1 < dt ->
  weighted st = Num w ->
  lastSecs st = Num l ->
  0.1 < w * att dt ->
  secs point = l + 3 * dt ->
  (2 <= fuel)%nat ->
  let st2 := decay_step (Num dt) (decay_step (Num dt) st) in
  while_gap (Num dt) fuel st point = Ret st2
  /\ weighted st2 = Num (w * att dt * att dt)
  /\ count st2 = (count st + 2)%Z
  /\ foreach_point (Num weight) (Num dt) fuel st (point :: rest)
     = foreach_point (Num weight) (Num dt) fuel
         (sample_step (Num weight) (Num dt) st2 point) rest.
Proof.
  intros Hdt Hw Hl Hbig Hsecs Hfuel st2.
  assert (Hdt0 : dt <> 0) by lra.
  pose proof (att_bounds dt Hdt0) as [Ha0 Ha1].
  assert (Hw1 : 0.1 < w) by nra.
  set (st1 := decay_step (Num dt) st).
  assert (Hst1 : st1 = {| weighted := Num (w * att dt);
                          lastSecs := Num (l + dt);
                          total := (total st + Num ((w * att dt) ^ 3))%dbl;
                          count := (count st + 1)%Z |}).
  { unfold st1. rewrite (decay_step_fin dt w) by assumption. now rewrite Hl. }
  assert (Hst2 : st2 = {| weighted := Num (w * att dt * att dt);
                          lastSecs := Num (l + dt + dt);
                          total := (total st1 + Num ((w * att dt * att dt) ^ 3))%dbl;
                          count := (count st + 1 + 1)%Z |}).
  { unfold st2. fold st1.
    rewrite (decay_step_fin dt (w * att dt) st1) by (assumption || now rewrite Hst1).
    rewrite Hst1 at 1 3. reflexivity. }
  assert (Hloop : while_gap (Num dt) fuel st point = Ret st2).
  { destruct fuel as [| [| fuel]]; [lia | lia |].
    cbn [while_gap].
    rewrite (gap_cond_true dt w l st) by (assumption || lra).
    fold st1.
    rewrite (gap_cond_true dt (w * att dt) (l + dt) st1)
      by (rewrite ?Hst1; reflexivity || lra).
    fold st2.
    apply while_gap_skip.
    apply gap_cond_closed with (l := l + dt + dt); [now rewrite Hst2 | lra]. }
  split; [exact Hloop | split; [now rewrite Hst2 | split]].
  - rewrite Hst2. cbn [count]. lia.
  - cbn [foreach_point]. rewrite Hloop. reflexivity.
Qed.

Lemma gap_of_three_intervals_witness :
  let st := {| weighted := Num 50; lastSecs := Num 10; total := Num 0; count := 7 |} in
  let st2 := decay_step (Num 1) (decay_step (Num 1) st) in
  while_gap (Num 1) 2 st (mkPoint 13 3.6) = Ret st2
  /\ weighted st2 = Num (50 * att 1 * att 1)
  /\ count st2 = (7 + 2)%Z
  /\ foreach_point (Num 70) (Num 1) 2 st [mkPoint 13 3.6]
     = foreach_point (Num 70) (Num 1) 2
         (sample_step (Num 70) (Num 1) st2 (mkPoint 13 3.6)) [].
Proof.
  intros st.
  apply (gap_of_three_intervals 70 1 50 10 st (mkPoint 13 3.6) [] 2);
    try reflexivity; try lia; try (cbn; lra).
  rewrite att_closed by lra. lra.
Defined.

(* ===================================================================== *)
(** ** The invariant of the estimator's loop *)
(* ===================================================================== *)

Lemma max_power_nonneg (weight : R) (points : list RideFilePoint) :
  0 <= max_power weight points.
Proof.
  induction points as [| p points IH]; cbn [max_power fold_right]; [lra |].
  eapply Rle_trans; [exact IH | apply Rmax_r].
Qed.

(** The function follows the step relation. *)
Lemma while_gap_steps (weight secsDelta : dbl) (fuel : nat) (st st1 : xp_state)
    (point : RideFilePoint) :
  while_gap secsDelta fuel st point = Ret st1 ->
  gap_cond secsDelta st1 point = false
  /\ forall rest st' points',
       xp_steps weight secsDelta st1 (point :: rest) st' points' ->
       xp_steps weight secsDelta st (point :: rest) st' points'.
Proof.
  revert st. induction fuel as [| fuel IH]; intros st Hloop; cbn [while_gap] in Hloop;
    destruct (gap_cond secsDelta st point) eqn:Hcond; try discriminate.
  - inversion Hloop; subst. auto.
  - destruct (IH _ Hloop) as [Hfalse Hsteps]. split; [exact Hfalse |].
    intros rest st' points' H. apply xp_decay; auto.
  - inversion Hloop; subst. auto.
Qed.

Lemma foreach_point_steps (weight secsDelta : dbl) (fuel : nat)
    (points : list RideFilePoint) (st st' : xp_state) :
  foreach_point weight secsDelta fuel st points = Ret st' ->
  xp_steps weight secsDelta st points st' [].
Proof.
  revert st. induction points as [| p points IH]; intros st Hrun;
    cbn [foreach_point] in Hrun.
  - inversion Hrun; subst. constructor.
  - destruct (while_gap secsDelta fuel st p) as [st1 | |] eqn:Hloop;
      cbn [mbind result_bind] in Hrun; try discriminate.
    destruct (while_gap_steps weight _ _ _ _ _ Hloop) as [Hfalse Hsteps].
    apply Hsteps. apply xp_sample; auto.
Qed.

(** The invariant, from any state that satisfies it. *)
Lemma xp_steps_invariant (weight dt : R) (st : xp_state)
    (points : list RideFilePoint) (st' : xp_state) (rest : list RideFilePoint) :
  0 <= 0.35 * weight + 2 -> dt <> 0 ->
  xp_steps (Num weight) (Num dt) st points st' rest ->
  forall w M : R,
    weighted st = Num w -> 0 <= w <= M ->
    Forall (fun p => 0 <= kph p) points ->
    exists (processed : list RideFilePoint) (w' : R),
      points = processed ++ rest
      /\ weighted st' = Num w'
      /\ 0 <= w' <= Rmax M (max_power weight processed).
Proof.
  intros HK Hdt Hsteps.
  pose proof (att_bounds dt Hdt) as [Ha0 Ha1].
  pose proof (swt_eq dt Hdt) as Hswt.
  induction Hsteps as [st points
                      | st p rest0 st' points' Hcond Hsteps IH
                      | st p rest0 st' points' Hcond Hsteps IH];
    intros w M Hw Hbound Hpos.
  - exists [], w. split; [reflexivity | split; [assumption |]].
    cbn [max_power fold_right]. split; [lra |].
    eapply Rle_trans; [apply Hbound | apply Rmax_l].
  - apply (IH (w * att dt) M).
    + now rewrite (decay_step_fin dt w).
    + split; [apply Rmult_le_pos; lra | nra].
    + assumption.
  - inversion Hpos as [| ? ? Hp Hrest]; subst.
    pose proof (inst_power_nonneg weight p HK Hp) as HP.
    destruct (IH (w * att dt + swt dt * inst_power weight p)
                 (Rmax M (inst_power weight p))) as (processed & w' & Heq & Hw' & Hb).
    + now rewrite (sample_step_fin weight dt w).
    + rewrite Hswt. split.
      * apply Rplus_le_le_0_compat; apply Rmult_le_pos; lra.
      * pose proof (Rmax_l M (inst_power weight p)).
        pose proof (Rmax_r M (inst_power weight p)).
        nra.
    + assumption.
    + exists (p :: processed), w'. split; [now rewrite Heq | split; [assumption |]].
      cbn [max_power fold_right]. fold (max_power weight processed).
      now rewrite Rmax_assoc.
Qed.

(* ===================================================================== *)
(** ** The loops end *)
(* ===================================================================== *)

Lemma decay_step_lastSecs (dt l : R) (st : xp_state) :
  lastSecs st = Num l -> lastSecs (decay_step (Num dt) st) = Num (l + dt).
Proof. intros Hl. unfold decay_step. cbn [lastSecs]. now rewrite Hl. Qed.

(** With a positive interval the inner loop ends after at most [n]
    passes when the sample is at most [n] intervals (and the tolerance)
    beyond the last time. *)
Lemma while_gap_total (dt : R) (point : RideFilePoint) (n : nat) :
  0 < dt ->
  forall (st : xp_state) (l : R),
    lastSecs st = Num l ->
    secs point <= l + dt + 0.1 + INR n * dt ->
    exists (st1 : xp_state) (l1 : R),
      while_gap (Num dt) n st point = Ret st1
      /\ lastSecs st1 = Num l1 /\ l <= l1.
Proof.
  intros Hdt. induction n as [| n IH]; intros st l Hl Hgap.
  - exists st, l. simpl in Hgap.
    rewrite while_gap_skip by (apply gap_cond_closed with (l := l); [assumption | lra]).
    repeat split; [assumption | lra].
  - cbn [while_gap]. destruct (gap_cond (Num dt) st point) eqn:Hcond.
    + destruct (IH (decay_step (Num dt) st) (l + dt)) as (st1 & l1 & Hret & Hl1 & Hle).
      * now apply decay_step_lastSecs.
      * rewrite S_INR in Hgap. lra.
      * exists st1, l1. repeat split; [assumption | assumption | lra].
    + exists st, l. repeat split; [assumption | lra].
Qed.





(** C10, as stated, fails in binary64.  At the interval 0.2 s (the
    double 0x1.999999999999ap-3) the attenuation and the sample weight
    do not sum to 1; and with the interval 1 s and samples of the power
    76.32 W (the double 0x1.3147ae147ae14p+6, what the drag model gives
    for 70 kg at 1.2 m/s) the weighted value is not above that power
    after 855 samples and above it after 856. *)
Lemma constants_and_weighted_round_in_binary64 :
  ((attenuation_b64 0x1.999999999999ap-3 + sampleWeight_b64 0x1.999999999999ap-3
    =? 1)%float = false)
  /\ ((attenuation_b64 0x1.999999999999ap-3 + sampleWeight_b64 0x1.999999999999ap-3
       <? 1)%float = true)
  /\ ((weighted_after_b64 1 0x1.3147ae147ae14p+6 0 855
       <=? 0x1.3147ae147ae14p+6)%float = true)
  /\ ((0x1.3147ae147ae14p+6
       <? weighted_after_b64 1 0x1.3147ae147ae14p+6 0 856)%float = true).
Proof. repeat split; vm_compute; reflexivity. Qed.

(** C10 (amended).  In exact arithmetic, the rounding of binary64 left
    aside: for a positive interval the attenuation and the sample weight
    are finite, the attenuation [a] lies strictly between 0 and 1 and the
    two sum to exactly 1; a decay-only step turns the weighted value [w]
    into [w * a] and a sample step into the convex combination
    [w * a + (1 - a) * power] with the power of the sample.  Hence, for a
    weight whose drag factor 0.35*weight + 2 is not negative (every
    weight from 0 up) and samples of non-negative speed, in every state
    the loop passes through (after every decay-only and every sample
    step) the weighted value is a number between 0 and the largest
    instantaneous power of the samples processed so far; the run of
    [foreach_point] passes through such states only. *)
Theorem weighted_within_processed_power
    (weight dt : R) (points : list RideFilePoint) :
  0 <= 0.35 * weight + 2 ->
  0 < dt ->
  Forall (fun p => 0 <= kph p) points ->
  (attenuation (Num dt) + sampleWeight (Num dt))%dbl = Num 1
  /\ (exists a : R,
        attenuation (Num dt) = Num a /\ sampleWeight (Num dt) = Num (1 - a)
        /\ 0 < a < 1
        /\ (forall st w,
              weighted st = Num w ->
              weighted (decay_step (Num dt) st) = Num (w * a))
        /\ (forall st w p,
              weighted st = Num w ->
              weighted (sample_step (Num weight) (Num dt) st p)
              = Num (w * a + (1 - a) * inst_power weight p)))
  /\ (forall p, swimming_power (Num weight) (Num (kph p) / Num 3.6)%dbl
                = Num (inst_power weight p))
  /\ (forall st' rest,
        xp_steps (Num weight) (Num dt) xp_init points st' rest ->
        exists (processed : list RideFilePoint) (w : R),
          points = processed ++ rest
          /\ weighted st' = Num w
          /\ 0 <= w <= max_power weight processed)
  /\ (forall fuel st',
        foreach_point (Num weight) (Num dt) fuel xp_init points = Ret st' ->
        xp_steps (Num weight) (Num dt) xp_init points st' []).
Proof.
  intros Hweight Hdt Hpos.
  assert (Hdt0 : dt <> 0) by lra.
  split; [| split; [| split; [| split]]].
  - rewrite attenuation_fin, sampleWeight_fin by assumption.
    cbn [dadd]. now rewrite att_swt_sum.
  - exists (att dt). rewrite attenuation_fin, sampleWeight_fin, swt_eq by assumption.
    split; [reflexivity | split; [reflexivity | split; [| split]]].
    + apply (att_bounds dt Hdt0).
    + intros st w Hw. now rewrite (decay_step_fin dt w).
    + intros st w p Hw. rewrite (sample_step_fin weight dt w) by assumption.
      cbn [weighted]. now rewrite swt_eq.
  - intros p. apply point_power_fin.
  - intros st' rest Hsteps.
    destruct (xp_steps_invariant weight dt xp_init points st' rest)
      with (w := 0) (M := 0) as (processed & w & Heq & Hw & Hb);
      try assumption; try reflexivity; try lra.
    exists processed, w. split; [assumption | split; [assumption |]].
    rewrite Rmax_right in Hb by apply max_power_nonneg. assumption.
  - intros fuel st'. apply foreach_point_steps.
Qed.

Lemma weighted_within_processed_power_witness :
  (attenuation (Num 1) + sampleWeight (Num 1))%dbl = Num 1
  /\ forall st' rest,
       xp_steps (Num 70) (Num 1) xp_init [mkPoint 1 3.6; mkPoint 5 7.2] st' rest ->
       exists (processed : list RideFilePoint) (w : R),
         [mkPoint 1 3.6; mkPoint 5 7.2] = processed ++ rest
         /\ weighted st' = Num w
         /\ 0 <= w <= max_power 70 processed.
Proof.
  assert (H70 : 0 <= 0.35 * 70 + 2) by lra.
  assert (H1 : 0 < 1) by lra.
  assert (Hpts : Forall (fun p => 0 <= kph p) [mkPoint 1 3.6; mkPoint 5 7.2])
    by (repeat constructor; cbn; lra).
  destruct (weighted_within_processed_power 70 1 [mkPoint 1 3.6; mkPoint 5 7.2]
              H70 H1 Hpts) as (Hsum & _ & _ & Hinv & _).
  split; assumption.
Defined.

(* ===================================================================== *)
(** ** Steady state *)
(* ===================================================================== *)

Lemma steady_point_power (weight speed secs0 : R) :
  inst_power weight (mkPoint secs0 (3.6 * speed))
  = (0.35 * weight + 2) / 0.6 * speed ^ 3.
Proof.
  unfold inst_power. cbn [kph].
  now replace (3.6 * speed / 3.6) with speed by lra.
Qed.

(** [n] evenly spaced samples of constant speed: no decay-only step is
    taken, and the deficit to the power [P] shrinks by the attenuation at
    every sample. *)
Lemma steady_run (weight speed dt : R) (fuel n : nat) :
  0 < dt ->
  let P := (0.35 * weight + 2) / 0.6 * speed ^ 3 in
  forall (st : xp_state) (start d T : R),
    weighted st = Num (P - d) ->
    lastSecs st = Num start ->
    total st = Num T ->
    exists st' : xp_state,
      foreach_point (Num weight) (Num dt) fuel st
        (steady_from start dt (3.6 * speed) n) = Ret st'
      /\ weighted st' = Num (P - d * att dt ^ n)
      /\ total st' = Num (T + cube_sum P (att dt) d n)
      /\ count st' = (count st + Z.of_nat n)%Z.
Proof.
  intros Hdt P. assert (Hdt0 : dt <> 0) by lra.
  induction n as [| n IH]; intros st start d T Hw Hl HT.
  - exists st. cbn [steady_from foreach_point cube_sum].
    rewrite Hw, HT, Z.add_0_r, Rplus_0_r. simpl. rewrite Rmult_1_r. auto.
  - cbn [steady_from foreach_point].
    rewrite while_gap_skip
      by (apply gap_cond_closed with (l := start); [assumption | cbn; lra]).
    cbn [mbind result_bind].
    rewrite (sample_step_fin weight dt (P - d)) by assumption.
    rewrite steady_point_power. fold P. rewrite HT. cbn [dadd secs].
    set (st1 := {| weighted := _ |}).
    destruct (IH st1 (start + dt) (d * att dt)
                ((T + ((P - d) * att dt + swt dt * P) ^ 3)))
      as (st' & Hrun & Hw' & HT' & Hc').
    + unfold st1. cbn [weighted]. f_equal. rewrite swt_eq by assumption. ring.
    + reflexivity.
    + reflexivity.
    + exists st'. split; [exact Hrun | split; [| split]].
      * rewrite Hw'. f_equal. simpl. ring.
      * rewrite HT'. f_equal. cbn [cube_sum]. rewrite swt_eq by assumption. ring.
      * rewrite Hc'. unfold st1. cbn [count]. lia.
Qed.

Lemma cube_sum_upper (P a d : R) (n : nat) :
  0 <= a <= 1 -> 0 <= d <= P -> cube_sum P a d n <= INR n * P ^ 3.
Proof.
  intros Ha. revert d. induction n as [| n IH]; intros d Hd.
  - simpl. lra.
  - cbn [cube_sum]. rewrite S_INR.
    assert (Hda : 0 <= d * a <= P) by nra.
    pose proof (IH (d * a) Hda).
    assert ((P - d * a) ^ 3 <= P ^ 3) by (apply pow_incr; lra).
    lra.
Qed.

Lemma cube_deficit_lower (y : R) :
  0 <= y <= 1 -> 1 - 3 * y + 2 * (y * y) <= (1 - y) ^ 3.
Proof.
  intros Hy.
  replace ((1 - y) ^ 3) with (1 - 3 * y + 2 * (y * y) + y * y * (1 - y)) by ring.
  assert (0 <= y * y * (1 - y)) by (apply Rmult_le_pos; nra).
  lra.
Qed.

Lemma cube_sum_lower (P a x : R) (n : nat) :
  0 <= P -> 0 <= a <= 1 -> 0 <= x <= 1 ->
  P ^ 3 * (INR n - 3 * geo_sum a x n + 2 * geo_sum (a * a) (x * x) n)
  <= cube_sum P a (P * x) n.
Proof.
  intros HP Ha. revert x. induction n as [| n IH]; intros x Hx.
  - simpl. lra.
  - cbn [cube_sum geo_sum]. rewrite S_INR.
    assert (Hxa : 0 <= x * a <= 1) by nra.
    pose proof (IH (x * a) Hxa) as IHn.
    replace (P * x * a) with (P * (x * a)) by ring.
    replace (x * x * (a * a)) with (x * a * (x * a)) by ring.
    replace ((P - P * (x * a)) ^ 3) with (P ^ 3 * (1 - x * a) ^ 3) by ring.
    pose proof (cube_deficit_lower (x * a) Hxa) as Hcube.
    assert (HP3 : 0 <= P ^ 3) by now apply pow_le.
    pose proof (Rmult_le_compat_l _ _ _ HP3 Hcube).
    lra.
Qed.

Lemma geo_sum_closed (a x : R) (n : nat) :
  a <> 1 -> geo_sum a x n = x * a * (1 - a ^ n) / (1 - a).
Proof.
  intros Ha. revert x. induction n as [| n IH]; intros x.
  - simpl. unfold Rdiv. ring.
  - cbn [geo_sum]. rewrite IH. simpl. field. lra.
Qed.

Lemma geo_sum_upper (a x : R) (n : nat) :
  0 <= a < 1 -> 0 <= x -> geo_sum a x n <= x * (a / (1 - a)).
Proof.
  intros Ha Hx. rewrite geo_sum_closed by lra.
  assert (Hpow : 0 <= a ^ n) by (apply pow_le; lra).
  assert (Hinv : 0 < / (1 - a)) by (apply Rinv_0_lt_compat; lra).
  unfold Rdiv.
  replace (x * a * (1 - a ^ n) * / (1 - a))
    with (x * (a * / (1 - a)) - x * a * / (1 - a) * a ^ n) by ring.
  assert (0 <= x * a * / (1 - a) * a ^ n).
  { repeat apply Rmult_le_pos; lra. }
  lra.
Qed.

(** Bernoulli's bound on the powers of a number below 1. *)
Lemma pow_below_one (b : R) (n : nat) :
  0 < b < 1 -> b ^ n <= / (1 + INR n * (/ b - 1)).
Proof.
  intros Hb.
  assert (Hinv : 1 < / b).
  { rewrite <- Rinv_1. apply Rinv_lt_contravar; lra. }
  pose proof (poly n (/ b - 1) ltac:(lra)) as Hpoly.
  replace (1 + (/ b - 1)) with (/ b) in Hpoly by ring.
  rewrite pow_inv in Hpoly.
  assert (Hbn : 0 < b ^ n) by (apply pow_lt; lra).
  assert (Hden : 0 < 1 + INR n * (/ b - 1)).
  { pose proof (pos_INR n). nra. }
  rewrite <- (Rinv_inv (b ^ n)).
  apply Rinv_le_contravar; assumption.
Qed.

Lemma cube_root_between (lo hi y : R) :
  0 < lo -> lo ^ 3 <= y <= hi ^ 3 -> lo <= hi ->
  lo <= Rpower y (1 / 3) <= hi.
Proof.
  intros Hlo [Hy1 Hy2] Hle.
  assert (Hlo3 : 0 < lo ^ 3) by now apply pow_lt.
  split.
  - rewrite <- (Rpower_third_cube lo Hlo) at 1.
    apply Rle_Rpower_l; lra.
  - rewrite <- (Rpower_third_cube hi) by lra.
    apply Rle_Rpower_l; lra.
Qed.

(** XPowerSwim on [n >= 1] evenly spaced samples of constant speed. *)
Lemma XPowerSwim_steady (weight speed dt : R) (fuel n : nat) (m : RideMetric) :
  0 < dt -> (1 <= n)%nat ->
  let P := (0.35 * weight + 2) / 0.6 * speed ^ 3 in
  let S := cube_sum P (att dt) P n in
  0 < S ->
  (exists st,
     foreach_point (Num weight) (Num dt) fuel xp_init (steady dt (3.6 * speed) n)
     = Ret st
     /\ weighted st = Num (P - P * att dt ^ n))
  /\ XPowerSwim_compute fuel (mkRide Swim weight dt (steady dt (3.6 * speed) n) ∅ 0) m
     = Ret {| value_ := Num (Rpower (S / INR n) (1 / 3));
              count_ := Num (INR n * dt) |}.
Proof.
  intros Hdt Hn P S HS.
  destruct (steady_run weight speed dt fuel n Hdt xp_init 0 P 0)
    as (st & Hrun & Hw & HT & Hc).
  { cbn [xp_init weighted]. f_equal. symmetry. now apply Rminus_diag_eq. }
  { reflexivity. }
  { reflexivity. }
  fold P in Hw, HT. fold S in HT.
  split; [exists st; split; assumption |].
  assert (HnR : 0 < INR n) by (apply lt_0_INR; lia).
  rewrite (XPowerSwim_swim fuel _ m st) by (reflexivity || exact Hrun).
  rewrite HT, Hc. cbn [xp_init count recIntSecs]. unfold of_int.
  rewrite Z.add_0_l, <- INR_IZR_INZ, Rplus_0_l.
  rewrite ddiv_fin by lra.
  rewrite pow_third_pos by (apply Rdiv_lt_0_compat; assumption).
  reflexivity.
Qed.

Lemma geo_sum_nonneg (a x : R) (n : nat) :
  0 <= a -> 0 <= x -> 0 <= geo_sum a x n.
Proof.
  intros Ha. revert x. induction n as [| n IH]; intros x Hx; cbn [geo_sum]; [lra |].
  assert (0 <= x * a) by now apply Rmult_le_pos.
  pose proof (IH (x * a) ltac:(assumption)). lra.
Qed.

(** The value of XPowerSwim on a steady swim lies between [lo * P] and
    [P] as soon as the geometric sums leave room for it. *)
Lemma XPowerSwim_steady_within (weight speed dt lo : R) (fuel n : nat)
    (m : RideMetric) :
  0 < dt -> (1 <= n)%nat ->
  let P := (0.35 * weight + 2) / 0.6 * speed ^ 3 in
  let a := att dt in
  0 < P -> 0 < lo <= 1 ->
  INR n * lo ^ 3 <= INR n - 3 * geo_sum a 1 n + 2 * geo_sum (a * a) 1 n ->
  exists v : R,
    XPowerSwim_compute fuel (mkRide Swim weight dt (steady dt (3.6 * speed) n) ∅ 0) m
    = Ret {| value_ := Num v; count_ := Num (INR n * dt) |}
    /\ lo * P <= v <= P.
Proof.
  intros Hdt Hn P a HP Hlo Hroom.
  assert (Hdt0 : dt <> 0) by lra.
  pose proof (att_bounds dt Hdt0) as Ha. fold a in Ha.
  assert (HnR : 0 < INR n) by (apply lt_0_INR; lia).
  assert (HP3 : 0 < P ^ 3) by now apply pow_lt.
  assert (Hlo3 : 0 < lo ^ 3) by (apply pow_lt; lra).
  pose proof (cube_sum_lower P a 1 n ltac:(lra) ltac:(lra) ltac:(lra)) as Hlow.
  rewrite !Rmult_1_r in Hlow.
  pose proof (cube_sum_upper P a P n ltac:(lra) ltac:(lra)) as Hup.
  fold P a in Hlow, Hup.
  set (S := cube_sum P a P n) in *.
  assert (Hbelow : INR n * (lo * P) ^ 3 <= S).
  { replace (INR n * (lo * P) ^ 3) with (P ^ 3 * (INR n * lo ^ 3)) by ring.
    eapply Rle_trans; [| exact Hlow].
    apply Rmult_le_compat_l; lra. }
  assert (HS : 0 < S).
  { eapply Rlt_le_trans; [| exact Hbelow].
    apply Rmult_lt_0_compat; [assumption |]. apply pow_lt. nra. }
  destruct (XPowerSwim_steady weight speed dt fuel n m Hdt Hn HS) as [_ Hret].
  exists (Rpower (S / INR n) (1 / 3)). split; [exact Hret |].
  apply cube_root_between.
  - nra.
  - split.
    + apply Rmult_le_reg_r with (INR n); [assumption |].
      unfold Rdiv. rewrite Rmult_assoc, Rinv_l by lra. lra.
    + apply Rmult_le_reg_r with (INR n); [assumption |].
      unfold Rdiv. rewrite Rmult_assoc, Rinv_l by lra. lra.
  - nra.
Qed.

Lemma INR_3600 : INR 3600 = 3600.
Proof. rewrite INR_IZR_INZ. reflexivity. Qed.

(** One hour at 1.2 m/s for 70 kg, a sample every second. *)
Lemma XPowerSwim_hour_steady (fuel : nat) (m : RideMetric) :
  let P := (0.35 * 70 + 2) / 0.6 * 1.2 ^ 3 in
  exists v : R,
    XPowerSwim_compute fuel (mkRide Swim 70 1 (steady 1 (3.6 * 1.2) 3600) ∅ 0) m
    = Ret {| value_ := Num v; count_ := Num 3600 |}
    /\ 0.995 * P <= v <= P.
Proof.
  intros P.
  assert (Ha : att 1 = 25 / 26) by (rewrite att_closed; lra).
  destruct (XPowerSwim_steady_within 70 1.2 1 0.995 fuel 3600 m) as (v & Hret & Hv).
  - lra.
  - lia.
  - lra.
  - lra.
  - rewrite Ha, INR_3600.
    assert (H1 : geo_sum (25 / 26) 1 3600 <= 25).
    { eapply Rle_trans; [apply geo_sum_upper; lra | lra]. }
    assert (H2 : 12.2 <= geo_sum (25 / 26 * (25 / 26)) 1 3600).
    { rewrite geo_sum_closed by lra.
      pose proof (pow_below_one (25 / 26 * (25 / 26)) 3600 ltac:(lra)) as Hb.
      rewrite INR_3600 in Hb.
      assert (Hsmall : (25 / 26 * (25 / 26)) ^ 3600 <= 0.004).
      { eapply Rle_trans; [exact Hb |].
        rewrite <- (Rinv_inv 0.004).
        apply Rinv_le_contravar; lra. }
      set (q := (25 / 26 * (25 / 26)) ^ 3600) in *.
      replace (1 * (25 / 26 * (25 / 26)) * (1 - q) / (1 - 25 / 26 * (25 / 26)))
        with (625 / 51 * (1 - q)) by lra.
      lra. }
    lra.
  - exists v. rewrite INR_3600, Rmult_1_r in Hret. split; assumption.
Qed.

Lemma nat_above (r : R) : 0 <= r -> exists N : nat, r <= INR N.
Proof.
  intros Hr. exists (Z.to_nat (up r)).
  destruct (archimed r) as [Hup _].
  rewrite INR_IZR_INZ, Z2Nat.id by (apply le_IZR; lra). lra.
Qed.

(** On evenly spaced samples of constant speed the weighted value and
    the value of XPowerSwim both tend to the power at that speed. *)
Lemma steady_run_converges (weight speed dt eps : R) :
  0 < 0.35 * weight + 2 -> 0 < speed -> 0 < dt -> 0 < eps ->
  let P := (0.35 * weight + 2) / 0.6 * speed ^ 3 in
  exists N : nat, forall (n fuel : nat) (m : RideMetric), (N <= n)%nat ->
    exists (st : xp_state) (w v : R),
      foreach_point (Num weight) (Num dt) fuel xp_init (steady dt (3.6 * speed) n)
      = Ret st
      /\ weighted st = Num w
      /\ Rabs (w - P) < eps
      /\ XPowerSwim_compute fuel
           (mkRide Swim weight dt (steady dt (3.6 * speed) n) ∅ 0) m
         = Ret {| value_ := Num v; count_ := Num (INR n * dt) |}
      /\ Rabs (v - P) < eps.
Proof.
  intros Hweight Hspeed Hdt Heps P.
  assert (Hdt0 : dt <> 0) by lra.
  assert (HP : 0 < P).
  { unfold P. apply Rmult_lt_0_compat; [| now apply pow_lt].
    apply Rdiv_lt_0_compat; lra. }
  pose proof (att_bounds dt Hdt0) as Ha. set (a := att dt) in *.
  destruct (pow_lt_1_zero a) with (y := eps / P) as [N1 HN1].
  { apply Rabs_def1; lra. }
  { now apply Rdiv_lt_0_compat. }
  set (delta := eps / (P + eps)).
  assert (Hdelta : 0 < delta < 1).
  { unfold delta. split.
    - apply Rdiv_lt_0_compat; lra.
    - apply Rmult_lt_reg_r with (P + eps); [lra |].
      unfold Rdiv. rewrite Rmult_assoc, Rinv_l by lra. lra. }
  assert (HPdelta : P * delta < eps).
  { unfold delta. apply Rmult_lt_reg_r with (P + eps); [lra |].
    unfold Rdiv. rewrite !Rmult_assoc, Rinv_l by lra. nra. }
  set (c := a / (1 - a)).
  assert (Hc : 0 < c) by (unfold c; apply Rdiv_lt_0_compat; lra).
  destruct (nat_above (3 * c / delta)) as [N2 HN2].
  { left. apply Rdiv_lt_0_compat; lra. }
  exists (Datatypes.S (N1 + N2)). intros n fuel m Hn.
  assert (HnR : 3 * c <= delta * INR n).
  { assert (INR N2 <= INR n) by (apply le_INR; lia).
    assert (H3 : 3 * c / delta <= INR n) by lra.
    apply Rmult_le_compat_l with (r := delta) in H3; [| lra].
    replace (delta * (3 * c / delta)) with (3 * c) in H3 by (field; lra).
    exact H3. }
  destruct (steady_run weight speed dt fuel n Hdt xp_init 0 P 0)
    as (st & Hrun & Hw & _).
  { cbn [xp_init weighted]. f_equal. symmetry. now apply Rminus_diag_eq. }
  { reflexivity. }
  { reflexivity. }
  fold P a in Hw.
  destruct (XPowerSwim_steady_within weight speed dt (1 - delta) fuel n m)
    as (v & Hret & Hv); try assumption; try lia; try lra.
  { fold a.
    pose proof (geo_sum_upper a 1 n ltac:(lra) ltac:(lra)) as Hg. fold c in Hg.
    pose proof (geo_sum_nonneg (a * a) 1 n ltac:(nra) ltac:(lra)) as Hg2.
    assert (Hcube : (1 - delta) ^ 3 <= 1 - delta).
    { replace ((1 - delta) ^ 3) with ((1 - delta) * ((1 - delta) * (1 - delta))) by ring.
      assert (0 <= (1 - delta) * (1 - delta) <= 1) by nra. nra. }
    assert (H0n : 0 <= INR n) by apply pos_INR.
    pose proof (Rmult_le_compat_l _ _ _ H0n Hcube). nra. }
  fold P in Hv.
  exists st, (P - P * a ^ n), v.
  split; [exact Hrun | split; [exact Hw | split; [| split; [exact Hret |]]]].
  - replace (P - P * a ^ n - P) with (- (P * a ^ n)) by ring.
    rewrite Rabs_Ropp, Rabs_mult, (Rabs_pos_eq P) by lra.
    pose proof (HN1 n ltac:(lia)) as Hsmall.
    apply Rmult_lt_compat_l with (r := P) in Hsmall; [| assumption].
    replace (P * (eps / P)) with eps in Hsmall by (field; lra).
    exact Hsmall.
  - apply Rabs_def1; nra.
Qed.

(** C9. For a constant speed (in m/s, sampled as km/h) on evenly spaced
    samples, a weight whose drag factor 0.35*weight + 2 is positive
    (every weight from 0 up) and a positive interval: the weighted
    value and the final value of XPowerSwim converge to the drag-model
    power of that speed as the number of samples grows (within any eps
    from some number of samples on), and the duration is the number of
    samples times the interval.  For 70 kg, 1.2 m/s, an interval of 1 s
    and 3600 samples the value is within 0.5 % of
    (0.35*70+2)/0.6 * 1.2^3, which is 76.3 W to within 0.1, and the
    duration is exactly 3600 s. *)
Theorem steady_speed_reaches_drag_power :
  (forall weight speed dt eps : R,
     0 < 0.35 * weight + 2 -> 0 < speed -> 0 < dt -> 0 < eps ->
     let P := (0.35 * weight + 2) / 0.6 * speed ^ 3 in
     swimming_power (Num weight) (Num speed) = Num P
     /\ exists N : nat, forall (n fuel : nat) (m : RideMetric), (N <= n)%nat ->
          exists (st : xp_state) (w v : R),
            foreach_point (Num weight) (Num dt) fuel xp_init
              (steady dt (3.6 * speed) n) = Ret st
            /\ weighted st = Num w
            /\ Rabs (w - P) < eps
            /\ XPowerSwim_compute fuel
                 (mkRide Swim weight dt (steady dt (3.6 * speed) n) ∅ 0) m
               = Ret {| value_ := Num v; count_ := Num (INR n * dt) |}
            /\ Rabs (v - P) < eps)
  /\ (forall (fuel : nat) (m : RideMetric),
        let P := (0.35 * 70 + 2) / 0.6 * 1.2 ^ 3 in
        exists v : R,
          XPowerSwim_compute fuel
            (mkRide Swim 70 1 (steady 1 (3.6 * 1.2) 3600) ∅ 0) m
          = Ret {| value_ := Num v; count_ := Num 3600 |}
          /\ Rabs (v - P) <= 0.005 * P
          /\ Rabs (P - 76.3) <= 0.1).
Proof.
  split.
  - intros weight speed dt eps Hweight Hspeed Hdt Heps P. split.
    + apply swimming_power_fin.
    + now apply steady_run_converges.
  - intros fuel m P.
    destruct (XPowerSwim_hour_steady fuel m) as (v & Hret & Hv).
    fold P in Hv. exists v. split; [exact Hret |].
    assert (HP : P = 76.32) by (unfold P; lra).
    split.
    + apply Rabs_le. lra.
    + rewrite HP. apply Rabs_le. lra.
Qed.

Lemma steady_speed_reaches_drag_power_witness :
  swimming_power (Num 70) (Num 1.2) = Num ((0.35 * 70 + 2) / 0.6 * 1.2 ^ 3)
  /\ exists N : nat, forall (n fuel : nat) (m : RideMetric), (N <= n)%nat ->
       exists (st : xp_state) (w v : R),
         foreach_point (Num 70) (Num 1) fuel xp_init (steady 1 (3.6 * 1.2) n) = Ret st
         /\ weighted st = Num w
         /\ Rabs (w - (0.35 * 70 + 2) / 0.6 * 1.2 ^ 3) < 0.5
         /\ XPowerSwim_compute fuel (mkRide Swim 70 1 (steady 1 (3.6 * 1.2) n) ∅ 0) m
            = Ret {| value_ := Num v; count_ := Num (INR n * 1) |}
         /\ Rabs (v - (0.35 * 70 + 2) / 0.6 * 1.2 ^ 3) < 0.5.
Proof.
  apply (proj1 steady_speed_reaches_drag_power 70 1.2 1 0.5); lra.
Defined.

(* ===================================================================== *)
(** ** More on the drag model *)
(* ===================================================================== *)

Lemma swimming_speed_value (weight power : R) :
  0 < 0.35 * weight + 2 ->
  swimming_speed (Num weight) (Num power)
  = pow (Num (0.6 / (0.35 * weight + 2) * power)) (Num (1 / 3)).
Proof.
  intros HK. unfold swimming_speed. cbn [dmul dadd].
  rewrite ddiv_fin by lra. cbn [dmul]. now rewrite third_fin.
Qed.

(** X1. The other round trip: for a positive drag factor and a speed
    v >= 0, the speed that [swimming_speed] gives for the power at v is v
    again; for a negative speed the power is negative and its cube root
    by [pow] is NaN. *)
Theorem swimming_speed_power_roundtrip (weight v : R) :
  0 < 0.35 * weight + 2 ->
  (0 <= v ->
   swimming_speed (Num weight) (swimming_power (Num weight) (Num v)) = Num v)
  /\ (v < 0 ->
      swimming_speed (Num weight) (swimming_power (Num weight) (Num v)) = NaN).
Proof.
  intros HK.
  assert (Heq : 0.6 / (0.35 * weight + 2) * ((0.35 * weight + 2) / 0.6 * v ^ 3)
                = v ^ 3) by (field; lra).
  split; intros Hv; rewrite swimming_power_fin, swimming_speed_value, Heq by assumption.
  - destruct (Rle_lt_or_eq_dec 0 v Hv) as [Hpos | <-].
    + rewrite pow_third_pos by now apply pow_lt.
      now rewrite Rpower_third_cube.
    + replace (0 ^ 3) with 0 by ring. apply pow_third_zero.
  - apply pow_third_neg.
    replace (v ^ 3) with (- ((- v) ^ 3)) by ring.
    assert (0 < (- v) ^ 3) by (apply pow_lt; lra). lra.
Qed.

Lemma swimming_speed_power_roundtrip_witness :
  swimming_speed (Num 70) (swimming_power (Num 70) (Num 1.2)) = Num 1.2.
Proof.
  apply (proj1 (swimming_speed_power_roundtrip 70 1.2 ltac:(lra))). lra.
Defined.

Lemma cube_increasing (x y : R) : x < y -> x ^ 3 < y ^ 3.
Proof.
  intros Hxy.
  assert (H : y ^ 3 - x ^ 3
              = (y - x) * ((y + x / 2) * (y + x / 2) + 3 / 4 * (x * x))) by field.
  assert (Hsq : 0 < (y + x / 2) * (y + x / 2) + 3 / 4 * (x * x)).
  { destruct (Req_dec x 0) as [-> | Hx].
    - replace (y + 0 / 2) with y by field. nra.
    - assert (0 < x * x) by nra.
      pose proof (Rle_0_sqr (y + x / 2)) as Hsqr. unfold Rsqr in Hsqr. lra. }
  assert (0 < (y - x) * ((y + x / 2) * (y + x / 2) + 3 / 4 * (x * x)))
    by (apply Rmult_lt_0_compat; lra).
  lra.
Qed.

(** X2. For a positive drag factor the power of the drag model is a
    finite number, 0 at speed 0, and strictly increasing in the speed;
    at a positive speed it is strictly increasing in the weight. *)
Theorem swimming_power_monotone (weight v1 v2 : R) :
  0 < 0.35 * weight + 2 ->
  swimming_power (Num weight) (Num 0) = Num 0
  /\ exists p1 p2 : R,
       swimming_power (Num weight) (Num v1) = Num p1
       /\ swimming_power (Num weight) (Num v2) = Num p2
       /\ (v1 < v2 -> p1 < p2)
       /\ (forall weight' p1', weight < weight' -> 0 < v1 ->
           swimming_power (Num weight') (Num v1) = Num p1' -> p1 < p1').
Proof.
  intros HK. split.
  - rewrite swimming_power_fin. f_equal. ring.
  - exists ((0.35 * weight + 2) / 0.6 * v1 ^ 3), ((0.35 * weight + 2) / 0.6 * v2 ^ 3).
    rewrite !swimming_power_fin.
    split; [reflexivity | split; [reflexivity | split]].
    + intros Hv. apply Rmult_lt_compat_l; [| now apply cube_increasing].
      apply Rdiv_lt_0_compat; lra.
    + intros weight' p1' Hw Hv Hp. rewrite swimming_power_fin in Hp.
      injection Hp as <-. change (v1 * (v1 * (v1 * 1))) with (v1 ^ 3).
      apply Rmult_lt_compat_r; [now apply pow_lt |].
      unfold Rdiv. apply Rmult_lt_compat_r; [| lra].
      apply Rinv_0_lt_compat. lra.
Qed.

Lemma swimming_power_monotone_witness :
  swimming_power (Num 70) (Num 0) = Num 0
  /\ exists p1 p2 : R,
       swimming_power (Num 70) (Num 1) = Num p1
       /\ swimming_power (Num 70) (Num 1.2) = Num p2
       /\ (1 < 1.2 -> p1 < p2)
       /\ (forall weight' p1', 70 < weight' -> 0 < 1 ->
           swimming_power (Num weight') (Num 1) = Num p1' -> p1 < p1').
Proof. apply (swimming_power_monotone 70 1 1.2). lra. Defined.

(* ===================================================================== *)
(** ** XPaceSwim *)
(* ===================================================================== *)

(** X3. XPaceSwim inverts the drag model.  On a swim with a positive drag
    factor: when xPowerSwim has the power of the speed v > 0 (m/s) as its
    value, the pace is (100/60)/v; when xPowerSwim has the value 0 the
    speed is 0 and the pace is set to 0 with no division; when
    "swimscore_xpower" has no value the assertion fails. *)
Theorem XPaceSwim_inverts_power
    (ride : RideFile) (deps : gmap string RideMetric) (m : RideMetric) :
  isSwim ride = true ->
  0 < 0.35 * getWeight ride + 2 ->
  (forall xPowerSwim v,
     deps !! "swimscore_xpower" = Some xPowerSwim -> 0 < v ->
     value_ xPowerSwim = swimming_power (Num (getWeight ride)) (Num v) ->
     XPaceSwim_compute ride deps m = Ret (setValue (Num (100 / 60 / v)) m))
  /\ (forall xPowerSwim,
        deps !! "swimscore_xpower" = Some xPowerSwim ->
        value_ xPowerSwim = Num 0 ->
        XPaceSwim_compute ride deps m = Ret (setValue (Num 0) m))
  /\ (deps !! "swimscore_xpower" = None ->
      XPaceSwim_compute ride deps m = AssertFailed).
Proof.
  intros Hswim HK. unfold XPaceSwim_compute. rewrite Hswim. cbn [negb].
  split; [| split].
  - intros xp v Hxp Hv Hval. rewrite (dep_Some _ _ _ Hxp).
    cbn [mbind result_bind]. rewrite Hval.
    rewrite (proj1 (swimming_speed_power_roundtrip _ v HK)) by lra.
    rewrite truthy_nonzero by lra.
    rewrite (ddiv_fin 100 60) by lra. now rewrite ddiv_fin by lra.
  - intros xp Hxp Hval. rewrite (dep_Some _ _ _ Hxp).
    cbn [mbind result_bind]. rewrite Hval.
    rewrite swimming_speed_value by assumption.
    rewrite Rmult_0_r, pow_third_zero. now rewrite truthy_zero.
  - intros Hnone. now rewrite (dep_None _ _ Hnone).
Qed.

Lemma XPaceSwim_inverts_power_witness :
  let ride := mkRide Swim 70 1 [] ∅ 0 in
  let m := {| value_ := Num 0; count_ := Num 1 |} in
  let deps : gmap string RideMetric :=
    <["swimscore_xpower" := {| value_ := Num 0; count_ := Num 60 |}]> ∅ in
  XPaceSwim_compute ride deps m = Ret (setValue (Num 0) m).
Proof.
  intros ride m deps.
  assert (HK : 0 < 0.35 * getWeight ride + 2) by (cbn; lra).
  apply (proj1 (proj2 (XPaceSwim_inverts_power ride deps m eq_refl HK))
           {| value_ := Num 0; count_ := Num 60 |}); reflexivity.
Defined.

(* ===================================================================== *)
(** ** SRI and SwimScore together *)
(* ===================================================================== *)

(** X4. SwimScore in closed form.  On a swim where xPowerSwim has the
    finite value x and duration c and STP the finite value t <> 0, SRI
    gets the value x/t and the duration c, and SwimScore computed with
    that SRI is (x/t)^2 * (c/3600) * 100: the square of the relative
    intensity times the hours times 100; it is not negative when the
    duration is not. *)
Theorem SwimScore_closed_form
    (ride : RideFile) (deps : gmap string RideMetric)
    (m_sri m_score xPowerSwim stp : RideMetric) (x c t : R) :
  isSwim ride = true ->
  deps !! "swimscore_xpower" = Some xPowerSwim ->
  deps !! "swimscore_tp" = Some stp ->
  value_ xPowerSwim = Num x ->
  count_ xPowerSwim = Num c ->
  value_ stp = Num t ->
  t <> 0 ->
  let score := (x / t) * (x / t) * (c / 3600) * 100 in
  SRI_compute ride deps m_sri = Ret {| value_ := Num (x / t); count_ := Num c |}
  /\ SwimScore_compute ride
       (<["swimscore_ri" := {| value_ := Num (x / t); count_ := Num c |}]> deps)
       m_score
     = Ret (setValue (Num score) m_score)
  /\ (0 <= c -> 0 <= score).
Proof.
  intros Hswim Hxp Htp Hx Hc Ht Ht0 score. split; [| split].
  - unfold SRI_compute.
    rewrite Hswim, (dep_Some _ _ _ Hxp), (dep_Some _ _ _ Htp).
    cbn [negb mbind result_bind].
    now rewrite Hx, Ht, Hc, truthy_nonzero, ddiv_fin by assumption.
  - unfold SwimScore_compute. rewrite Hswim.
    rewrite (dep_Some _ "swimscore_xpower" xPowerSwim)
      by now rewrite lookup_insert_ne.
    rewrite (dep_Some _ "swimscore_ri" {| value_ := Num (x / t); count_ := Num c |})
      by now rewrite lookup_insert_eq.
    rewrite (dep_Some _ "swimscore_tp" stp) by now rewrite lookup_insert_ne.
    cbn [negb mbind result_bind value_].
    rewrite Hx, Ht, Hc. cbn [dmul].
    rewrite truthy_nonzero, ddiv_fin by nra. cbn [dmul].
    do 3 f_equal. unfold score. field. assumption.
  - intros Hc0. unfold score.
    pose proof (Rle_0_sqr (x / t)) as Hsq. unfold Rsqr in Hsq.
    apply Rmult_le_pos; [| lra].
    apply Rmult_le_pos; [assumption |].
    apply Rmult_le_pos; [assumption | lra].
Qed.

Lemma SwimScore_closed_form_witness :
  let xp := {| value_ := Num 60; count_ := Num 1800 |} in
  let stp := {| value_ := Num 80; count_ := Num 1 |} in
  let deps : gmap string RideMetric :=
    <["swimscore_tp" := stp]> (<["swimscore_xpower" := xp]> ∅) in
  let ride := mkRide Swim 70 1 [] ∅ 0 in
  let m := {| value_ := Num 0; count_ := Num 1 |} in
  SRI_compute ride deps m = Ret {| value_ := Num (60 / 80); count_ := Num 1800 |}
  /\ SwimScore_compute ride
       (<["swimscore_ri" := {| value_ := Num (60 / 80); count_ := Num 1800 |}]> deps) m
     = Ret (setValue (Num ((60 / 80) * (60 / 80) * (1800 / 3600) * 100)) m)
  /\ (0 <= 1800 -> 0 <= (60 / 80) * (60 / 80) * (1800 / 3600) * 100).
Proof.
  intros xp stp deps ride m.
  apply (SwimScore_closed_form ride deps m m xp stp 60 1800 80);
    try reflexivity.
  lra.
Defined.

Lemma dmul_NaN_r (x : dbl) : (x * NaN)%dbl = NaN.
Proof. now destruct x. Qed.

Lemma ddiv_NaN_r (x : dbl) : (x / NaN)%dbl = NaN.
Proof. now destruct x. Qed.

Lemma swimming_speed_NaN (weight : dbl) : swimming_speed weight NaN = NaN.
Proof.
  unfold swimming_speed. rewrite dmul_NaN_r, third_fin. apply pow_third_NaN.
Qed.

(** X5. What a swim without samples does to the other metrics.  Its
    xPowerSwim has the value NaN and the duration 0; with it, XPaceSwim
    sets NaN (a NaN speed passes the test [speed ? ... : 0.0]), and for a
    finite threshold power other than 0, SRI sets NaN and SwimScore
    computed from them sets NaN. *)
Theorem no_samples_reach_dependents
    (fuel : nat) (ride : RideFile) (deps : gmap string RideMetric)
    (m stp : RideMetric) (t : R) :
  isSwim ride = true ->
  dataPoints ride = [] ->
  deps !! "swimscore_tp" = Some stp ->
  value_ stp = Num t ->
  t <> 0 ->
  let xp := {| value_ := NaN; count_ := Num 0 |} in
  let deps1 := <["swimscore_xpower" := xp]> deps in
  XPowerSwim_compute fuel ride m = Ret xp
  /\ XPaceSwim_compute ride deps1 m = Ret (setValue NaN m)
  /\ SRI_compute ride deps1 m = Ret xp
  /\ SwimScore_compute ride (<["swimscore_ri" := xp]> deps1) m
     = Ret (setValue NaN m).
Proof.
  intros Hswim Hpts Htp Ht Ht0 xp deps1.
  assert (Hx1 : deps1 !! "swimscore_xpower" = Some xp)
    by (unfold deps1; now rewrite lookup_insert_eq).
  assert (Ht1 : deps1 !! "swimscore_tp" = Some stp)
    by (unfold deps1; now rewrite lookup_insert_ne).
  split; [now apply XPowerSwim_no_samples | split; [| split]].
  - unfold XPaceSwim_compute. rewrite Hswim, (dep_Some _ _ _ Hx1).
    cbn [negb mbind result_bind xp value_].
    rewrite swimming_speed_NaN. cbn [truthy]. now rewrite ddiv_NaN_r.
  - unfold SRI_compute.
    rewrite Hswim, (dep_Some _ _ _ Hx1), (dep_Some _ _ _ Ht1).
    cbn [negb mbind result_bind xp value_ count_].
    now rewrite Ht, truthy_nonzero by assumption.
  - unfold SwimScore_compute. rewrite Hswim.
    rewrite (dep_Some _ "swimscore_xpower" xp) by now rewrite lookup_insert_ne.
    rewrite (dep_Some _ "swimscore_ri" xp) by now rewrite lookup_insert_eq.
    rewrite (dep_Some _ "swimscore_tp" stp) by now rewrite lookup_insert_ne.
    cbn [negb mbind result_bind xp value_ count_].
    rewrite Ht. cbn [dmul]. now rewrite truthy_nonzero by nra.
Qed.

Lemma no_samples_reach_dependents_witness :
  let ride := mkRide Swim 70 1 [] ∅ 0 in
  let m := {| value_ := Num 0; count_ := Num 1 |} in
  let stp := {| value_ := Num 80; count_ := Num 1 |} in
  let xp := {| value_ := NaN; count_ := Num 0 |} in
  let deps1 : gmap string RideMetric :=
    <["swimscore_xpower" := xp]> (<["swimscore_tp" := stp]> ∅) in
  XPowerSwim_compute 0 ride m = Ret xp
  /\ XPaceSwim_compute ride deps1 m = Ret (setValue NaN m)
  /\ SRI_compute ride deps1 m = Ret xp
  /\ SwimScore_compute ride (<["swimscore_ri" := xp]> deps1) m
     = Ret (setValue NaN m).
Proof.
  intros ride m stp xp deps1.
  apply (no_samples_reach_dependents 0 ride (<["swimscore_tp" := stp]> ∅) m stp 80);
    try reflexivity.
  lra.
Defined.

(* ===================================================================== *)
(** ** Declared dependencies *)
(* ===================================================================== *)

Lemma while_gap_no_assert (secsDelta : dbl) (fuel : nat) (st : xp_state)
    (point : RideFilePoint) :
  while_gap secsDelta fuel st point <> AssertFailed.
Proof.
  revert st. induction fuel as [| fuel IH]; intros st; cbn [while_gap];
    destruct (gap_cond secsDelta st point); try discriminate. apply IH.
Qed.

Lemma foreach_point_no_assert (weight secsDelta : dbl) (fuel : nat)
    (points : list RideFilePoint) (st : xp_state) :
  foreach_point weight secsDelta fuel st points <> AssertFailed.
Proof.
  revert st. induction points as [| p points IH]; intros st; cbn [foreach_point];
    [discriminate |].
  pose proof (while_gap_no_assert secsDelta fuel st p) as Hw.
  destruct (while_gap secsDelta fuel st p); cbn [mbind result_bind];
    [apply IH | contradiction | discriminate].
Qed.

(** X6. The dependencies registered by [addAllSwimScore] and
    [addTriScore] are those the metrics look up: when every declared
    dependency of a metric has a value no assertion of its [compute]
    fails, for any activity; and on a swim each declared dependency of a
    swim metric is needed, its absence fails an assertion. *)
Theorem declared_dependencies_are_the_lookups
    (fuel : nat) (toInt : string -> Z) (d : MetricDefinition)
    (ride : RideFile) (context : Context)
    (deps : gmap string RideMetric) (m : RideMetric) :
  In d (addAllSwimScore fuel toInt ++ [TriScore_def]) ->
  ((forall s, In s (dependencies d) -> is_Some (deps !! s)) ->
   compute d ride context deps m <> AssertFailed)
  /\ (forall s, d <> TriScore_def -> isSwim ride = true ->
        In s (dependencies d) -> deps !! s = None ->
        compute d ride context deps m = AssertFailed).
Proof.
  intros Hd. cbn in Hd.
  destruct Hd as [<- | [<- | [<- | [<- | [<- | [<- | []]]]]]];
    (split; [intros Hall | intros s Hnot Hswim Hs Hnone]); cbn in *.
  - unfold XPowerSwim_compute.
    destruct (negb (isSwim ride)); [discriminate |].
    pose proof (foreach_point_no_assert (Num (getWeight ride))
                  (Num (recIntSecs ride)) fuel (dataPoints ride) xp_init) as Hf.
    destruct (foreach_point _ _ _ _ _); cbn [mbind result_bind];
      [discriminate | contradiction | discriminate].
  - destruct Hs.
  - unfold STP_compute. destruct (negb (isSwim ride)); discriminate.
  - destruct Hs.
  - destruct (Hall "swimscore_xpower") as [x Hx]; [now left |].
    unfold XPaceSwim_compute. rewrite (dep_Some _ _ _ Hx).
    destruct (negb (isSwim ride)); discriminate.
  - destruct Hs as [<- | []].
    unfold XPaceSwim_compute. now rewrite Hswim, (dep_None _ _ Hnone).
  - destruct (Hall "swimscore_xpower") as [x Hx]; [now left |].
    destruct (Hall "swimscore_tp") as [t Ht]; [now right; left |].
    unfold SRI_compute. rewrite (dep_Some _ _ _ Hx), (dep_Some _ _ _ Ht).
    destruct (negb (isSwim ride)); discriminate.
  - unfold SRI_compute, dep. rewrite Hswim. cbn [negb].
    destruct Hs as [<- | [<- | []]]; rewrite ?Hnone;
      try reflexivity;
      destruct (deps !! "swimscore_xpower"); reflexivity.
  - destruct (Hall "swimscore_xpower") as [x Hx]; [now left |].
    destruct (Hall "swimscore_tp") as [t Ht]; [now right; left |].
    destruct (Hall "swimscore_ri") as [r Hr]; [now right; right; left |].
    unfold SwimScore_compute.
    rewrite (dep_Some _ _ _ Hx), (dep_Some _ _ _ Ht), (dep_Some _ _ _ Hr).
    destruct (negb (isSwim ride)); discriminate.
  - unfold SwimScore_compute, dep. rewrite Hswim. cbn [negb].
    destruct Hs as [<- | [<- | [<- | []]]]; rewrite ?Hnone;
      try reflexivity;
      destruct (deps !! "swimscore_xpower"); try reflexivity;
      destruct (deps !! "swimscore_ri"); reflexivity.
  - destruct (Hall "swimscore") as [x Hx]; [now left |].
    destruct (Hall "govss") as [g Hg]; [now right; left |].
    destruct (Hall "skiba_bike_score") as [b Hb]; [now right; right; left |].
    unfold TriScore_compute.
    rewrite (dep_Some _ _ _ Hx), (dep_Some _ _ _ Hg), (dep_Some _ _ _ Hb).
    destruct (isSwim ride), (isRun ride); discriminate.
  - now contradiction Hnot.
Qed.

Lemma declared_dependencies_are_the_lookups_witness :
  let ride := mkRide Swim 70 1 [] ∅ 0 in
  let m := {| value_ := Num 0; count_ := Num 1 |} in
  compute (SRI_def) ride no_zones ∅ m = AssertFailed.
Proof.
  intros ride m.
  apply (proj2 (declared_dependencies_are_the_lookups 0 toInt_decimal SRI_def
                  ride no_zones ∅ m ltac:(cbn; tauto)) "swimscore_tp");
    [discriminate | reflexivity | cbn; tauto | reflexivity].
Defined.

(* ===================================================================== *)
(** ** The value of XPowerSwim and the peak power *)
(* ===================================================================== *)






(* ===================================================================== *)
(** ** Decay-only steps and the duration *)
(* ===================================================================== *)

Lemma gap_cond_true_inv (dt l : R) (st : xp_state) (point : RideFilePoint) :
  lastSecs st = Num l -> gap_cond (Num dt) st point = true ->
  l + dt + 0.1 < secs point.
Proof.
  intros Hl Hcond. unfold gap_cond, EPSILON in Hcond.
  rewrite Hl in Hcond. cbn [dadd] in Hcond.
  apply andb_prop in Hcond as [_ Hgap]. cbn [dgt] in Hgap.
  destruct (Rlt_dec (l + dt + 0.1) (secs point)); [assumption | discriminate].
Qed.


(** X10. The decay-only steps before a sample.  When the inner loop
    returns it has taken some number k of steps, within the bound on
    passes: the step count has grown by k, the last time by k intervals,
    and that time is still more than the tolerance 0.1 s before the
    sample if any step was taken (the decay never runs past the sample);
    the loop condition is false at the end. *)
Theorem decay_steps_stay_before_sample
    (dt l : R) (point : RideFilePoint) (fuel : nat) (st : xp_state) :
  lastSecs st = Num l ->
  forall st1 : xp_state,
    while_gap (Num dt) fuel st point = Ret st1 ->
    exists k : nat,
      (k <= fuel)%nat
      /\ count st1 = (count st + Z.of_nat k)%Z
      /\ lastSecs st1 = Num (l + INR k * dt)
      /\ ((0 < k)%nat -> l + INR k * dt + 0.1 < secs point)
      /\ gap_cond (Num dt) st1 point = false.
Proof.
  revert st l. induction fuel as [| fuel IH]; intros st l Hl st1 Hrun;
    cbn [while_gap] in Hrun;
    destruct (gap_cond (Num dt) st point) eqn:Hcond; try discriminate.
  - injection Hrun as <-. exists 0%nat.
    repeat split; [lia | lia | rewrite Hl; f_equal; simpl; ring | lia | assumption].
  - destruct (IH (decay_step (Num dt) st) (l + dt)
                (decay_step_lastSecs dt l st Hl) st1 Hrun)
      as (k & Hk & Hc & Hl1 & Hbefore & Hend).
    pose proof (gap_cond_true_inv dt l st point Hl Hcond) as Hgap.
    exists (Datatypes.S k). rewrite S_INR.
    repeat split; [lia | | | | assumption].
    + rewrite Hc. cbn [decay_step count]. lia.
    + rewrite Hl1. f_equal. ring.
    + intros _. destruct k as [| k].
      * simpl. lra.
      * pose proof (Hbefore ltac:(lia)). lra.
  - injection Hrun as <-. exists 0%nat.
    repeat split; [lia | lia | rewrite Hl; f_equal; simpl; ring | lia | assumption].
Qed.

Lemma decay_steps_stay_before_sample_witness :
  let st := {| weighted := Num 50; lastSecs := Num 10; total := Num 0; count := 7 |} in
  exists (st1 : xp_state) (k : nat),
    while_gap (Num 1) 5 st (mkPoint 13 3.6) = Ret st1
    /\ (k <= 5)%nat
    /\ count st1 = (7 + Z.of_nat k)%Z
    /\ lastSecs st1 = Num (10 + INR k * 1)
    /\ ((0 < k)%nat -> 10 + INR k * 1 + 0.1 < 13)
    /\ gap_cond (Num 1) st1 (mkPoint 13 3.6) = false.
Proof.
  intros st.
  destruct (while_gap_total 1 (mkPoint 13 3.6) 5 ltac:(lra) st 10 eq_refl)
    as (st1 & l1 & Hrun & _); [cbn; lra |].
  destruct (decay_steps_stay_before_sample 1 10 (mkPoint 13 3.6) 5 st eq_refl st1 Hrun)
    as (k & H).
  exists st1, k. split; [exact Hrun | exact H].
Defined.




Lemma foreach_point_no_gaps (weight dt : R) (fuel : nat)
    (points : list RideFilePoint) :
  forall (st : xp_state) (l : R),
    lastSecs st = Num l ->
    no_gaps dt l points ->
    exists st',
      foreach_point (Num weight) (Num dt) fuel st points = Ret st'
      /\ count st' = (count st + Z.of_nat (length points))%Z.
Proof.
  induction points as [| p points IH]; intros st l Hl Hgaps.
  - exists st. cbn [foreach_point length Z.of_nat]. split; [reflexivity | lia].
  - destruct Hgaps as [Hgap Hgaps]. cbn [foreach_point].
    rewrite while_gap_skip by now apply gap_cond_closed with (l := l).
    cbn [mbind result_bind].
    destruct (IH (sample_step (Num weight) (Num dt) st p) (secs p) eq_refl Hgaps)
      as (st' & Hrun & Hc).
    exists st'. split; [exact Hrun |].
    rewrite Hc. cbn [sample_step count length]. lia.
Qed.

(** X12. A swim recorded without gaps (each sample at most an interval
    and the tolerance 0.1 s after the one before, wherever the first one
    is) takes no decay-only step: [compute] returns without any pass of
    the inner loop, and the duration is the number of samples times the
    interval, whatever the interval. *)
Theorem XPowerSwim_without_gaps
    (ride : RideFile) (first : RideFilePoint) (rest : list RideFilePoint) :
  isSwim ride = true ->
  dataPoints ride = first :: rest ->
  no_gaps (recIntSecs ride) (secs first) rest ->
  forall (fuel : nat) (m : RideMetric),
    exists v : dbl,
      XPowerSwim_compute fuel ride m
      = Ret {| value_ := v;
               count_ := Num (INR (length (dataPoints ride)) * recIntSecs ride) |}.
Proof.
  intros Hswim Hpts Hgaps fuel m.
  destruct (foreach_point_no_gaps (getWeight ride) (recIntSecs ride) fuel rest
              (sample_step (Num (getWeight ride)) (Num (recIntSecs ride)) xp_init first)
              (secs first) eq_refl Hgaps) as (st & Hrun & Hc).
  assert (Hall : foreach_point (Num (getWeight ride)) (Num (recIntSecs ride)) fuel
                   xp_init (dataPoints ride) = Ret st).
  { rewrite Hpts. cbn [foreach_point].
    rewrite while_gap_skip
      by (apply gap_cond_negligible with (w := 0); [reflexivity | lra]).
    exact Hrun. }
  rewrite (XPowerSwim_swim fuel ride m st Hswim Hall).
  eexists. do 2 f_equal. unfold of_int. cbn [dmul]. do 2 f_equal.
  rewrite Hc, Hpts. cbn [sample_step count xp_init length].
  rewrite INR_IZR_INZ. f_equal. lia.
Qed.

Lemma XPowerSwim_without_gaps_witness :
  let ride := mkRide Swim 70 1 [mkPoint 100 3.6; mkPoint 101 4.5; mkPoint 102.1 4] ∅ 0 in
  exists v : dbl,
    XPowerSwim_compute 0 ride {| value_ := Num 0; count_ := Num 1 |}
    = Ret {| value_ := v; count_ := Num (INR 3 * 1) |}.
Proof.
  intros ride.
  apply (XPowerSwim_without_gaps ride (mkPoint 100 3.6)
           [mkPoint 101 4.5; mkPoint 102.1 4]).
  - reflexivity.
  - reflexivity.
  - cbn. lra.
Defined.
